(** * NSF random-grant explorer: sampler and citation extractor

    A shallow embedding of [src/lib/nsf-api.ts] (the filtered revision,
    lines 1-270): [generateRandomAwardId], [fetchAwardById],
    [getRandomGrant], [getRandomGrantByOffset] and [parsePublications].

    - JavaScript strings are sequences of UTF-16 code units ([list N]);
      [String.length] is the number of code units.
    - Reading an array out of range yields [undefined]; calling a method
      on [undefined] raises a [TypeError].  Array reads are therefore
      [option]-valued and the extractor lives in an error monad.
    - [fetch] and [crypto.getRandomValues] are calls to the outside
      world: programs are trees of such calls, run against an arbitrary
      stateful environment, and every network exchange is logged. *)

From Stdlib Require Import ZArith NArith List Bool Lia.
From Stdlib Require String Ascii.
Import ListNotations.

Set Implicit Arguments.

(* ================================================================== *)
(** ** JavaScript strings *)
(* ================================================================== *)

Import String.StringSyntax.
Delimit Scope string_scope with string.

Module JS.

Definition jsstring := list N.

(** A literal: every character of an ASCII literal is one code unit. *)
Definition js (s : String.string) : jsstring :=
  map Ascii.N_of_ascii (String.list_ascii_of_string s).

Definition eqb (a b : jsstring) : bool :=
  if list_eq_dec N.eq_dec a b then true else false.

(** JavaScript truthiness of a string: non-empty. *)
Definition truthy (s : jsstring) : bool :=
  match s with [] => false | _ :: _ => true end.

(** Truthiness of a possibly [undefined] string ([parts[i]]). *)
Definition truthy_opt (o : option jsstring) : bool :=
  match o with Some s => truthy s | None => false end.

(** [WhiteSpace] and [LineTerminator] code units: what [trim] removes
    and what [\s] matches. *)
Definition isWhite (c : N) : bool :=
  ((9 <=? c) && (c <=? 13) || (c =? 32) || (c =? 160) || (c =? 5760)
   || (8192 <=? c) && (c <=? 8202) || (c =? 8232) || (c =? 8233)
   || (c =? 8239) || (c =? 8287) || (c =? 12288) || (c =? 65279))%N.

(** [\d] *)
Definition isDigit (c : N) : bool := ((48 <=? c) && (c <=? 57))%N.
(** [[A-Z]] *)
Definition isUpper (c : N) : bool := ((65 <=? c) && (c <=? 90))%N.
(** [[a-z]] *)
Definition isLower (c : N) : bool := ((97 <=? c) && (c <=? 122))%N.

Fixpoint dropWhile (f : N -> bool) (s : jsstring) : jsstring :=
  match s with
  | [] => []
  | c :: s' => if f c then dropWhile f s' else s
  end.

Fixpoint takeWhile (f : N -> bool) (s : jsstring) : jsstring :=
  match s with
  | [] => []
  | c :: s' => if f c then c :: takeWhile f s' else []
  end.

Definition trimStart (s : jsstring) : jsstring := dropWhile isWhite s.
Definition trimEnd (s : jsstring) : jsstring :=
  rev (dropWhile isWhite (rev s)).

(** [s.trim()] *)
Definition trim (s : jsstring) : jsstring := trimEnd (trimStart s).

Fixpoint startsWith (p s : jsstring) : bool :=
  match p, s with
  | [], _ => true
  | _ :: _, [] => false
  | a :: p', b :: s' => (a =? b)%N && startsWith p' s'
  end.

(** [s.includes(p)] *)
Fixpoint includes (p s : jsstring) : bool :=
  startsWith p s ||
  match s with
  | [] => false
  | _ :: s' => includes p s'
  end.

(** [s.split("~")]: always at least one piece. *)
Fixpoint split (sep : N) (s : jsstring) : list jsstring :=
  match s with
  | [] => [[]]
  | c :: s' =>
      if (c =? sep)%N then [] :: split sep s'
      else match split sep s' with
           | p :: ps => (c :: p) :: ps
           | [] => [[c]]
           end
  end.

(** [a[i]] for a numeric index: [undefined] outside [0 .. a.length-1]. *)
Definition at_ {A} (a : list A) (i : Z) : option A :=
  if (i <? 0)%Z then None else nth_error a (Z.to_nat i).

Definition all (f : N -> bool) (s : jsstring) : bool := forallb f s.

End JS.

Arguments JS.js s%_string.

(* ================================================================== *)
(** ** The regular expressions of [parsePublications] *)
(* ================================================================== *)

Module Re.
Import JS.

(** [/^10\.\d+\//] *)
Definition doiPrefix (s : jsstring) : bool :=
  match s with
  | 49%N :: 48%N :: 46%N :: rest =>
      truthy (takeWhile isDigit rest)
      && startsWith [47%N] (dropWhile isDigit rest)
  | _ => false
  end.

(** [/^\d{4}$/] *)
Definition year4 (s : jsstring) : bool :=
  (length s =? 4)%nat && all isDigit s.

(** [/^\d+$/] *)
Definition digits (s : jsstring) : bool :=
  truthy s && all isDigit s.

(** [/^[A-Z][a-z]+/] *)
Definition capWord (s : jsstring) : bool :=
  match s with
  | a :: b :: _ => isUpper a && isLower b
  | _ => false
  end.

(** [/^\d{4}-\d{2}-\d{2}/] *)
Definition datePrefix (s : jsstring) : bool :=
  match s with
  | y1 :: y2 :: y3 :: y4 :: h1 :: m1 :: m2 :: h2 :: d1 :: d2 :: _ =>
      isDigit y1 && isDigit y2 && isDigit y3 && isDigit y4
      && (h1 =? 45)%N && isDigit m1 && isDigit m2
      && (h2 =? 45)%N && isDigit d1 && isDigit d2
  | _ => false
  end.

Definition notWhite (c : N) : bool := negb (isWhite c).

(** A run of [\S] holds [\S+@\S+]: some [@] with a code unit before it
    and one after it. *)
Definition innerAt (word : jsstring) : bool :=
  existsb (N.eqb 64) (removelast (tl word)).

(** [/\s+\S+@\S+/] anchored at the start of [s]: what is left after the
    match.  [\s+] and the last [\S+] are greedy, so the match is a whole
    run of white space followed by the whole run of [\S] after it; a
    shorter [\s+] leaves [\S+] in front of white space and fails. *)
Definition emailAt (s : jsstring) : option jsstring :=
  let s1 := dropWhile isWhite s in
  if truthy (takeWhile isWhite s) && innerAt (takeWhile notWhite s1)
  then Some (dropWhile notWhite s1)
  else None.

(** The loop of [s.replace(/\s+\S+@\S+/g, "")]: at each position either
    a match is dropped or one code unit is copied.  [n] bounds the
    number of positions still to visit. *)
Fixpoint stripLoop (n : nat) (s : jsstring) : jsstring :=
  match n with
  | O => s
  | S n' =>
      match s with
      | [] => []
      | c :: s' =>
          match emailAt s with
          | Some rest => stripLoop n' rest
          | None => c :: stripLoop n' s'
          end
      end
  end.

Definition stripEmails (s : jsstring) : jsstring := stripLoop (length s) s.

End Re.

(* ================================================================== *)
(** ** Results of code that may raise *)
(* ================================================================== *)

Inductive Outcome (A : Type) : Type :=
| Ok (a : A)
| TypeError.

Arguments Ok {A} a.
Arguments TypeError {A}.

Definition bind {A B} (m : Outcome A) (f : A -> Outcome B) : Outcome B :=
  match m with
  | Ok a => f a
  | TypeError => TypeError
  end.

Declare Scope outcome_scope.
Delimit Scope outcome_scope with outcome.
Notation "x <- m ;; k" := (bind m (fun x => k))
  (at level 61, m at next level, right associativity) : outcome_scope.
Notation "' p <- m ;; k" := (bind m (fun p => k))
  (at level 61, p pattern, m at next level, right associativity) : outcome_scope.

Fixpoint mapM {A B} (f : A -> Outcome B) (l : list A) : Outcome (list B) :=
  match l with
  | [] => Ok []
  | a :: l' =>
      (b <- f a ;; bs <- mapM f l' ;; Ok (b :: bs))%outcome
  end.

(* ================================================================== *)
(** ** [parsePublications] *)
(* ================================================================== *)

Module Citation.
Import JS.
Local Open Scope outcome_scope.

(** [interface Publication] *)
Record Publication : Type := mkPublication {
  year : jsstring;
  authors : jsstring;
  title : jsstring;
  doi : jsstring;
  journal : jsstring
}.

Definition tilde : N := 126.

(** [x.trim()] where [x] may be [undefined]. *)
Definition trimOf (x : option jsstring) : Outcome jsstring :=
  match x with
  | Some s => Ok (trim s)
  | None => TypeError
  end.

(** [x.includes(p)] where [x] may be [undefined]. *)
Definition includesOf (p : jsstring) (x : option jsstring) : Outcome bool :=
  match x with
  | Some s => Ok (includes p s)
  | None => TypeError
  end.

(** [part.includes("doi.org") || part.match(/^10\.\d+\//)] *)
Definition doiShaped (part : jsstring) : bool :=
  includes (js "doi.org") part || Re.doiPrefix part.

(** [part.includes("http") ? part : `https://doi.org/${part}`] *)
Definition normalizeDoi (part : jsstring) : jsstring :=
  if includes (js "http") part then part else js "https://doi.org/" ++ part.

(** The DOI scan, [for (let i = 0; i < parts.length; i++)]: [n] is the
    number of iterations left, [parts.length - i].  Yields [(doi, doiIndex)]. *)
Fixpoint doiLoop (parts : list jsstring) (n : nat) (i : Z)
  : Outcome (jsstring * Z) :=
  match n with
  | O => Ok ([], (-1)%Z)
  | S n' =>
      part <- trimOf (at_ parts i) ;;
      if doiShaped part then Ok (normalizeDoi part, i)
      else doiLoop parts n' (i + 1)%Z
  end.

(** The year scan, [for (let i = 0; i < Math.min(parts.length, 4); i++)].
    Yields [(year, yearIndex)]. *)
Fixpoint yearLoop (parts : list jsstring) (n : nat) (i : Z)
  : Outcome (jsstring * Z) :=
  match n with
  | O => Ok ([], (-1)%Z)
  | S n' =>
      part <- trimOf (at_ parts i) ;;
      if Re.year4 part then Ok (part, i)
      else yearLoop parts n' (i + 1)%Z
  end.

(** The identifier the scan settles on: the first DOI-shaped trimmed
    token, normalized, or the empty string. *)
Definition doiOfFirst (tokens : list jsstring) : jsstring :=
  match find doiShaped tokens with
  | Some p => normalizeDoi p
  | None => []
  end.

(** [p.length > 15 && !p.includes("doi.org") && !p.match(/^10\.\d+\//)
     && !/^\d+$/.test(p) && !p.includes("OSTI")] *)
Definition titleLike (p : jsstring) : bool :=
  (15 <? length p)%nat && negb (includes (js "doi.org") p)
  && negb (Re.doiPrefix p) && negb (Re.digits p)
  && negb (includes (js "OSTI") p).

(** The title scan of the journal-first branch,
    [for (let i = start; i < parts.length; i++)]; [title] stays [""]
    when no part qualifies. *)
Fixpoint titleLoop (parts : list jsstring) (n : nat) (i : Z)
  : Outcome jsstring :=
  match n with
  | O => Ok []
  | S n' =>
      p <- trimOf (at_ parts i) ;;
      if titleLike p then Ok p
      else titleLoop parts n' (i + 1)%Z
  end.

Definition titleScan (parts : list jsstring) (start : Z) : Outcome jsstring :=
  titleLoop parts (Z.to_nat (Z.of_nat (length parts) - start)) start.

(** A scan that reads [parts[i]] for the [n] indices from [i] on stays
    within the array and ends without raising. *)
Definition withinArray (parts : list jsstring) (n : nat) (i : Z) : Prop :=
  (0 <= i)%Z /\ (i + Z.of_nat n <= Z.of_nat (length parts))%Z.

(** [parts[0]?.trim() || ""] *)
Definition firstPartOf (parts : list jsstring) : jsstring :=
  match at_ parts 0 with
  | Some s => trim s
  | None => []
  end.

(** The body of the [map] callback up to the end of the format dispatch
    (source lines 153-229): the fields as first chosen. *)
Definition dispatch (pub : jsstring) : Outcome Publication :=
  let parts := split tilde pub in
  '(doi0, doiIndex) <- doiLoop parts (length parts) 0 ;;
  '(year0, yearIndex) <- yearLoop parts (Nat.min (length parts) 4) 0 ;;
  let firstPart := firstPartOf parts in
  if Re.year4 firstPart then
    authors1 <- (if truthy_opt (at_ parts 1) then trimOf (at_ parts 1)
                 else Ok []) ;;
    title1 <-
      (if (0 <=? doiIndex)%Z && truthy_opt (at_ parts (doiIndex + 1))
       then trimOf (at_ parts (doiIndex + 1))
       else if truthy_opt (at_ parts 3) then trimOf (at_ parts 3)
       else if truthy_opt (at_ parts 2) then
         hasDoi <- includesOf (js "doi") (at_ parts 2) ;;
         if negb hasDoi then trimOf (at_ parts 2) else Ok []
       else Ok []) ;;
    Ok (mkPublication firstPart authors1 title1 doi0 [])
  else
    if (0 <=? yearIndex)%Z && truthy_opt (at_ parts (yearIndex + 1)) then
      let afterYear :=
        match at_ parts (yearIndex + 1) with
        | Some s => trim s
        | None => []
        end in
      if Re.digits afterYear && truthy_opt (at_ parts (yearIndex + 2)) then
        authors1 <- trimOf (at_ parts (yearIndex + 2)) ;;
        title1 <- titleScan parts (yearIndex + 3) ;;
        Ok (mkPublication year0 authors1 title1 doi0 firstPart)
      else
        title1 <- titleScan parts (yearIndex + 2) ;;
        Ok (mkPublication year0 afterYear title1 doi0 firstPart)
    else Ok (mkPublication year0 [] [] doi0 firstPart).

(** The guard of the swap (source lines 232 and 234). *)
Definition looksSwapped (title0 authors0 : jsstring) : bool :=
  (truthy title0 && (length title0 <? 80)%nat
   && includes (js " and ") title0 && Re.capWord title0)
  && (truthy authors0 && (50 <? length authors0)%nat
      && negb (includes (js " and ") authors0)).

(** [[title, authors] = [authors, title]] under its guard. *)
Definition swapCorrection (p : Publication) : Publication :=
  if looksSwapped (title p) (authors p)
  then mkPublication (year p) (title p) (authors p) (doi p) (journal p)
  else p.

(** The guard of the title rejection (source lines 240-246). *)
Definition badTitle (t : jsstring) : bool :=
  truthy t
  && (Re.digits t || eqb t (js "N") || eqb t (js "OSTI")
      || (length t <? 10)%nat || Re.datePrefix t).

Definition rejectTitle (p : Publication) : Publication :=
  if badTitle (title p)
  then mkPublication (year p) (authors p) [] (doi p) (journal p)
  else p.

(** [authors.replace(/\s+\S+@\S+/g, "").trim()], applied when [authors]
    is non-empty. *)
Definition cleanAuthorsText (a : jsstring) : jsstring :=
  if truthy a then trim (Re.stripEmails a) else a.

Definition cleanAuthors (p : Publication) : Publication :=
  mkPublication (year p) (cleanAuthorsText (authors p)) (title p)
                (doi p) (journal p).

(** The [map] callback: one raw string to one [Publication]. *)
Definition extract (pub : jsstring) : Outcome Publication :=
  p <- dispatch pub ;;
  Ok (cleanAuthors (rejectTitle (swapCorrection p))).

(** [pub.title && pub.title.length > 10] *)
Definition accepted (p : Publication) : bool :=
  truthy (title p) && (10 <? length (title p))%nat.

(** [publicationStrings.map(...).filter(...)] *)
Definition parsePublications (publicationStrings : list jsstring)
  : Outcome (list Publication) :=
  pubs <- mapM extract publicationStrings ;;
  Ok (filter accepted pubs).

(** *** Raw citation strings used as examples *)

Definition yearFirstRaw : jsstring :=
  js "2019~Jane Doe and John Smith~10.1000/xyz123~A Study of Something Important~".

Definition journalFirstRaw : jsstring :=
  js "Nature~2021~5~A. Author and B. Author~A Long And Meaningful Title About Research~".



Definition hostOnlyDoiRaw : jsstring :=
  js "2020~A. Author~doi.org/10.1000/x~Some Title Here Long".


End Citation.


(* ================================================================== *)
(** ** The sampler: [getRandomGrant] and [getRandomGrantByOffset] *)
(* ================================================================== *)

Module Sampler.
Import JS.
Local Open Scope Z_scope.

(** [interface NSFAward], the fields the sampler reads. *)
Record NSFAward : Type := mkAward {
  id : jsstring;
  awardTitle : jsstring;
  abstractText : jsstring
}.

(** [interface NSFApiResponse]: [response.metadata.totalCount] and
    [response.award]. *)
Record NSFApiResponse : Type := mkResponse {
  totalCount : Z;
  award : list NSFAward
}.

(** [status: "active" | "completed"] *)
Inductive Status : Type := Active | Completed.

(** [statusFilter]: ["&activeAwards=true"] or ["&expiredAwards=true"]. *)
Inductive StatusFilter : Type := ActiveAwards | ExpiredAwards.

(** The three URLs the module requests.  [amountFilter] is [None] for
    the empty string and [Some m] for [&estimatedTotalAmtFrom=m]; an
    identifier is the decimal rendering of its number. *)
Inductive Url : Type :=
| AwardById (awardId : Z)
| AwardCount (amountFilter : option Z) (statusFilter : StatusFilter)
| AwardAtOffset (offset : Z) (amountFilter : option Z)
                (statusFilter : StatusFilter).

(** What [await fetch(url)] followed by [await response.json()] can do:
    [fetch] rejects, or there is a response with its [ok] flag whose
    body parses to an [NSFApiResponse] or fails to parse. *)
Inductive FetchResult : Type :=
| Rejected
| Response (ok : bool) (body : option NSFApiResponse).

(** Programs over the two outside calls. *)
Inductive Prog (A : Type) : Type :=
| Ret (a : A)
| GetRandomValues (k : Z -> Prog A)
| Fetch (u : Url) (k : FetchResult -> Prog A).

Arguments Ret {A} a.
Arguments GetRandomValues {A} k.
Arguments Fetch {A} u k.

Fixpoint bindP {A B} (p : Prog A) (f : A -> Prog B) : Prog B :=
  match p with
  | Ret a => f a
  | GetRandomValues k => GetRandomValues (fun r => bindP (k r) f)
  | Fetch u k => Fetch u (fun resp => bindP (k resp) f)
  end.

(** An outside world: a source of 32-bit draws and a registry, both
    free to depend on everything that happened before. *)
Record World (W : Type) : Type := mkWorld {
  random : W -> Z * W;
  http : Url -> W -> FetchResult * W
}.

Definition Exchange : Type := Url * FetchResult.

(** Running a program: the result, the final world and the network
    exchanges in the order they were made. *)
Fixpoint run {W A} (env : World W) (p : Prog A) (w : W)
  : A * W * list Exchange :=
  match p with
  | Ret a => (a, w, [])
  | GetRandomValues k =>
      let (r, w1) := random env w in run env (k r) w1
  | Fetch u k =>
      let (resp, w1) := http env u w in
      let '(a, w2, log) := run env (k resp) w1 in
      (a, w2, (u, resp) :: log)
  end.

(** [Math.floor(randomBuffer[0] / (0xffffffff + 1) * range)].  For a
    32-bit [r] and [|range| < 2^21] the product [r * range] is below
    2^53, so the double-precision quotient and product are exact and the
    floor is the integer quotient. *)
Definition scale (r range : Z) : Z := (r * range) / (4294967295 + 1).

(** A value [randomBuffer[0]] of a [Uint32Array] can hold. *)
Definition u32 (r : Z) : Prop := 0 <= r < 4294967296.

Definition minId : Z := 700000.
Definition maxId : Z := 2600000.

(** [generateRandomAwardId] as a function of the draw. *)
Definition randomId (r : Z) : Z := scale r (maxId - minId + 1) + minId.

Definition generateRandomAwardId : Prog Z :=
  GetRandomValues (fun r => Ret (randomId r)).

(** [data.response?.award?.length > 0 ? data.response.award[0] : null] *)
Definition firstAward (data : NSFApiResponse) : option NSFAward :=
  match award data with
  | a :: _ => Some a
  | [] => None
  end.

(** What [fetchAwardById] makes of the exchange. *)
Definition awardOfLookup (resp : FetchResult) : option NSFAward :=
  match resp with
  | Rejected => None
  | Response ok body =>
      if negb ok then None
      else match body with
           | Some data => firstAward data
           | None => None
           end
  end.

Definition fetchAwardById (awardId : Z) : Prog (option NSFAward) :=
  Fetch (AwardById awardId) (fun resp => Ret (awardOfLookup resp)).

(** Truthiness of [minAmount?: number]: [None] stands for [undefined]
    (and [NaN]), and [0] is falsy. *)
Definition truthyNum (m : option Z) : bool :=
  match m with
  | Some z => negb (z =? 0)
  | None => false
  end.

(** [minAmount ? `&estimatedTotalAmtFrom=${minAmount}` : ""] *)
Definition amountFilterOf (minAmount : option Z) : option Z :=
  if truthyNum minAmount then minAmount else None.

(** [status === "active" ? "&activeAwards=true" : "&expiredAwards=true"] *)
Definition statusFilterOf (status : Status) : StatusFilter :=
  match status with
  | Active => ActiveAwards
  | Completed => ExpiredAwards
  end.

(** [Math.floor(randomValue * (totalCount - 1))] as a function of the
    draw and of the capped count. *)
Definition randomOffset (r cappedCount : Z) : Z := scale r (cappedCount - 1).

(** [Math.min(countData.response.metadata.totalCount, 3000)] *)
Definition capCount (countData : NSFApiResponse) : Z :=
  Z.min (totalCount countData) 3000.

(** [getRandomGrantByOffset]; every [throw] lands in the [catch] that
    returns [null]. *)
Definition getRandomGrantByOffset (minAmount : option Z) (status : Status)
  : Prog (option NSFAward) :=
  let amountFilter := amountFilterOf minAmount in
  let statusFilter := statusFilterOf status in
  Fetch (AwardCount amountFilter statusFilter) (fun countResponse =>
    match countResponse with
    | Rejected => Ret None
    | Response ok body =>
        if negb ok then Ret None
        else match body with
             | None => Ret None
             | Some countData =>
                 let total := capCount countData in
                 if total =? 0 then Ret None
                 else
                   GetRandomValues (fun r =>
                     Fetch (AwardAtOffset (randomOffset r total)
                                          amountFilter statusFilter)
                       (fun response => Ret (awardOfLookup response)))
             end
    end).

(** [award && award.abstractText && award.abstractText.length > 100] *)
Definition goodAward (a : option NSFAward) : bool :=
  match a with
  | Some aw => truthy (abstractText aw)
               && (100 <? length (abstractText aw))%nat
  | None => false
  end.

Definition maxAttempts : nat := 20.

(** The retry loop [for (let attempt = 0; attempt < maxAttempts; attempt++)]
    followed by the statement after it; [n] is [maxAttempts - attempt]. *)
Fixpoint attemptLoop (n : nat) (fallback : Prog (option NSFAward))
  : Prog (option NSFAward) :=
  match n with
  | O => fallback
  | S n' =>
      bindP generateRandomAwardId (fun awardId =>
      bindP (fetchAwardById awardId) (fun a =>
        if goodAward a then Ret a else attemptLoop n' fallback))
  end.

(** [(minAmount && minAmount > 0) || status === "active"] *)
Definition filtered (minAmount : option Z) (status : Status) : bool :=
  (truthyNum minAmount && match minAmount with
                          | Some z => 0 <? z
                          | None => false
                          end)
  || match status with Active => true | Completed => false end.

Definition getRandomGrant (minAmount : option Z) (status : Status)
  : Prog (option NSFAward) :=
  if filtered minAmount status
  then getRandomGrantByOffset minAmount status
  else attemptLoop maxAttempts (getRandomGrantByOffset minAmount status).

(** *** Observations on the log of exchanges *)

Definition isIdLookup (e : Exchange) : bool :=
  match fst e with
  | AwardById _ => true
  | _ => false
  end.

Definition isOffsetLookup (e : Exchange) : bool :=
  match fst e with
  | AwardAtOffset _ _ _ => true
  | _ => false
  end.

(** An identifier lookup whose answer passes the quality check. *)
Definition hit (e : Exchange) : bool := goodAward (awardOfLookup (snd e)).

Definition miss (e : Exchange) : bool := negb (hit e).

(** What a run of the retry loop with [n] attempts left looks like. *)
Definition loopShape {W} (env : World W) (fb : Prog (option NSFAward))
    (n : nat) (out : option NSFAward * W * list Exchange) : Prop :=
  let '(res, w', log) := out in
  exists tries rest,
    log = tries ++ rest
    /\ forallb isIdLookup tries = true
    /\ (length tries <= n)%nat
    /\ ((exists pre e,
           tries = pre ++ [e] /\ forallb miss pre = true /\ hit e = true
           /\ res = awardOfLookup (snd e) /\ rest = [])
        \/ (length tries = n /\ forallb miss tries = true
            /\ exists w1, run env fb w1 = (res, w', rest))).

(** The URL is a count or offset query carrying the request's filter. *)
Definition carriesFilter (minAmount : option Z) (status : Status)
                         (u : Url) : Prop :=
  match u with
  | AwardById _ => False
  | AwardCount af sf | AwardAtOffset _ af sf =>
      af = amountFilterOf minAmount /\ sf = statusFilterOf status
  end.



(** *** Small worlds to run the sampler in *)

(** A registry where every identifier is assigned to the same award and
    every filtered population has [count] members; every draw is [r]. *)
Definition constWorld (r count : Z) (a : NSFAward) : World unit :=
  mkWorld (fun w => (r, w))
          (fun u w => (Response true (Some (mkResponse count [a])), w)).

Definition longAbstract : jsstring := repeat 97%N 101.

Definition sampleAward : NSFAward :=
  mkAward (js "1234567") (js "A grant") longAbstract.

End Sampler.

(* ================================================================== *)
(** ** Further observations on sampler runs *)
(* ================================================================== *)

Module SamplerObs.
Import JS Sampler.
Local Open Scope Z_scope.

Definition isCountQuery (e : Exchange) : bool :=
  match fst e with
  | AwardCount _ _ => true
  | _ => false
  end.

(** The exchange brought back a usable body: [fetch] resolved, the
    response was [ok] and its JSON parsed. *)
Definition usable (resp : FetchResult) : bool :=
  match resp with
  | Response true (Some _) => true
  | _ => false
  end.

(** Every draw of the world is a value of a [Uint32Array]. *)
Definition drawsU32 {W} (env : World W) : Prop :=
  forall w, u32 (fst (random env w)).

(** The least draw that [scale] sends to [k] or above, for the range of
    identifiers: the ceiling of [k * 2^32 / 1900001]. *)
Definition firstDrawOf (k : Z) : Z :=
  (k * 4294967296 + (maxId - minId + 1) - 1) / (maxId - minId + 1).

End SamplerObs.

(* ================================================================== *)
(** ** Observations on the author clean-up *)
(* ================================================================== *)

Module Authors.
Import JS.

(** Somewhere in [s] the pattern [/\s+\S+@\S+/] matches. *)
Fixpoint hasEmail (s : jsstring) : bool :=
  match s with
  | [] => false
  | _ :: s' =>
      match Re.emailAt s with
      | Some _ => true
      | None => hasEmail s'
      end
  end.

(** The first run of [\S] after the leading white space. *)
Definition firstWord (s : jsstring) : jsstring :=
  takeWhile Re.notWhite (dropWhile isWhite s).

(** [s] is empty or begins with white space. *)
Definition startsWhite (s : jsstring) : bool :=
  match s with
  | [] => true
  | c :: _ => isWhite c
  end.

Definition atSign : N := 64.

End Authors.

(* ================================================================== *)
(** ** Global replacement, [stripHtml] *)
(* ================================================================== *)

Module Html.
Import JS.

(** The loop of [s.replace(re, rep)] for a global [re] that matches no
    empty string: [matchAt] gives what is left after a match anchored
    at the start of its argument.  At each position a match is replaced
    by [rep], or one code unit is copied; [n] bounds the positions
    still to visit. *)
Fixpoint replaceLoop (matchAt : jsstring -> option jsstring)
    (rep : jsstring) (n : nat) (s : jsstring) : jsstring :=
  match n with
  | O => s
  | S n' =>
      match s with
      | [] => []
      | c :: s' =>
          match matchAt s with
          | Some rest => rep ++ replaceLoop matchAt rep n' rest
          | None => c :: replaceLoop matchAt rep n' s'
          end
      end
  end.

Definition replaceAll (matchAt : jsstring -> option jsstring)
    (rep s : jsstring) : jsstring :=
  replaceLoop matchAt rep (length s) s.

(** A pattern without operators, such as [/&amp;/]. *)
Definition literalAt (pat s : jsstring) : option jsstring :=
  if startsWith pat s then Some (skipn (length pat) s) else None.

(** [/\s+/]: a whole run of white space. *)
Definition spacesAt (s : jsstring) : option jsstring :=
  match s with
  | c :: _ => if isWhite c then Some (dropWhile isWhite s) else None
  | [] => None
  end.

Definition ltSign : N := 60.
Definition gtSign : N := 62.
Definition notGt (c : N) : bool := negb (c =? gtSign)%N.

(** [/<[^>]*>/]: from [<] to the first [>] after it. *)
Definition tagAt (s : jsstring) : option jsstring :=
  match s with
  | c :: t =>
      if (c =? ltSign)%N then
        match dropWhile notGt t with
        | _ :: rest => Some rest
        | [] => None
        end
      else None
  | [] => None
  end.

Definition space : jsstring := [32%N].

(** [stripHtml] *)
Definition stripHtml (html : jsstring) : jsstring :=
  let s1 := replaceAll tagAt space html in
  let s2 := replaceAll (literalAt (js "&nbsp;")) space s1 in
  let s3 := replaceAll (literalAt (js "&amp;")) (js "&") s2 in
  let s4 := replaceAll (literalAt (js "&lt;")) (js "<") s3 in
  let s5 := replaceAll (literalAt (js "&gt;")) (js ">") s4 in
  let s6 := replaceAll (literalAt (js "&quot;")) [34%N] s5 in
  let s7 := replaceAll spacesAt space s6 in
  trim s7.

(** Some [<] of [s] has a [>] after it. *)
Fixpoint hasTag (s : jsstring) : bool :=
  match s with
  | [] => false
  | c :: s' => (c =? ltSign)%N && existsb (N.eqb gtSign) s' || hasTag s'
  end.

(** White space is single spaces between other code units: none at
    either end, no pair of neighbours, nothing but U+0020. *)
Fixpoint spacedInside (s : jsstring) : bool :=
  match s with
  | [] => true
  | c :: s' =>
      if isWhite c then
        (c =? 32)%N
        && match s' with
           | d :: _ => negb (isWhite d)
           | [] => false
           end
        && spacedInside s'
      else spacedInside s'
  end.

Definition singleSpaced (s : jsstring) : bool :=
  match s with
  | [] => true
  | c :: _ => negb (isWhite c) && spacedInside s
  end.

(** As [spacedInside], but a space may also stand at the very end. *)
Fixpoint looseSpaced (s : jsstring) : bool :=
  match s with
  | [] => true
  | c :: s' =>
      (if isWhite c then
         (c =? 32)%N
         && match s' with
            | d :: _ => negb (isWhite d)
            | [] => true
            end
       else true)
      && looseSpaced s'
  end.

Definition ampersand : N := 38.

End Html.

(* ================================================================== *)
(** ** The paper route: [GET /api/paper] *)
(* ================================================================== *)

Module Paper.
Import JS Html.

(** [doi.replace(/^https?:\/\/doi\.org\//, "")] *)
Definition doiIdOf (doi : jsstring) : jsstring :=
  if startsWith (js "https://doi.org/") doi then skipn 16 doi
  else if startsWith (js "http://doi.org/") doi then skipn 15 doi
  else doi.

(** [[^>]+>]: at least one code unit other than [>], then [>]. *)
Definition bodyThenGt (r : jsstring) : option jsstring :=
  if truthy (takeWhile notGt r) then
    match dropWhile notGt r with
    | _ :: rest => Some rest
    | [] => None
    end
  else None.

(** [/<\/?jats:[^>]+>/] *)
Definition jatsTagAt (s : jsstring) : option jsstring :=
  match s with
  | c :: t =>
      if (c =? ltSign)%N then
        let t1 := match t with
                  | 47%N :: t' => t'
                  | _ => t
                  end in
        if startsWith (js "jats:") t1 then bodyThenGt (skipn 5 t1) else None
      else None
  | [] => None
  end.

(** [/<[^>]+>/] *)
Definition anyTagAt (s : jsstring) : option jsstring :=
  match s with
  | c :: t => if (c =? ltSign)%N then bodyThenGt t else None
  | [] => None
  end.

(** Somewhere in [s] the pattern [/<[^>]+>/] matches. *)
Fixpoint hasBodyTag (s : jsstring) : bool :=
  match s with
  | [] => false
  | _ :: s' =>
      match anyTagAt s with
      | Some _ => true
      | None => hasBodyTag s'
      end
  end.

(** No [[^>]+>] can start at the head of [r]: [r] is empty or begins
    with [>], or holds no [>] at all. *)
Definition noBody (r : jsstring) : Prop :=
  takeWhile notGt r = [] \/ existsb (N.eqb gtSign) r = false.

(** The clean-up of a non-empty [message.abstract]. *)
Definition cleanAbstract (abstract : jsstring) : jsstring :=
  let a1 := replaceAll jatsTagAt [] abstract in
  let a2 := replaceAll anyTagAt [] a1 in
  let a3 := replaceAll spacesAt space a2 in
  trim a3.

(** [let abstract = message.abstract || null; if (abstract) {...}] *)
Definition abstractOf (abstract : option jsstring) : option jsstring :=
  match abstract with
  | Some a => if truthy a then Some (cleanAbstract a) else None
  | None => None
  end.

(** [x || ""] *)
Definition orEmpty (x : option jsstring) : jsstring :=
  match x with
  | Some s => s
  | None => []
  end.

(** [`${a.given || ""} ${a.family || ""}`.trim()] *)
Definition formatAuthor (a : option jsstring * option jsstring) : jsstring :=
  trim (orEmpty (fst a) ++ space ++ orEmpty (snd a)).

(** [message.author.map(...).filter(Boolean)] *)
Definition authorNames (author : list (option jsstring * option jsstring))
  : list jsstring :=
  filter truthy (map formatAuthor author).

(** [names.join(", ")] *)
Fixpoint join (sep : jsstring) (names : list jsstring) : jsstring :=
  match names with
  | [] => []
  | [a] => a
  | a :: rest => a ++ sep ++ join sep rest
  end.

(** [message.author?.map(...).filter(Boolean).join(", ")] *)
Definition authorsOf (author : option (list (option jsstring * option jsstring)))
  : option jsstring :=
  match author with
  | Some l => Some (join (js ", ") (authorNames l))
  | None => None
  end.

End Paper.

(* ================================================================== *)
(** ** The grant route: [GET /api/grant] *)
(* ================================================================== *)

Module GrantRoute.
Import JS Citation Sampler Html.
Local Open Scope Z_scope.

Definition digitValue (c : N) : Z := Z.of_N (c - 48).

(** The integer a run of decimal digits denotes. *)
Definition digitsValue (ds : jsstring) : Z :=
  fold_left (fun acc c => acc * 10 + digitValue c) ds 0.

(** [parseInt(s, 10)]: leading white space is skipped, one sign is
    read, then the longest run of decimal digits; [None] is [NaN].  The
    number is the exact integer as long as it is below 2^53 in
    magnitude. *)
Definition parseInt10 (s : jsstring) : option Z :=
  let s1 := trimStart s in
  let negative := match s1 with
                  | 45%N :: _ => true
                  | _ => false
                  end in
  let s2 := match s1 with
            | 45%N :: t | 43%N :: t => t
            | _ => s1
            end in
  let ds := takeWhile isDigit s2 in
  if truthy ds
  then Some (if negative then - digitsValue ds else digitsValue ds)
  else None.





(** What the handler makes of the grant's [publicationResearch] and
    [projectOutComesReport]: the [publications] and the
    [projectOutComesReport] of the JSON answer ([None] is [null]). *)
Definition presentGrant (publicationResearch : option (list jsstring))
    (projectOutComesReport : option jsstring)
  : Outcome (list Publication * option jsstring) :=
  bind (match publicationResearch with
        | Some l => parsePublications l
        | None => Ok []
        end)
       (fun publications =>
          Ok (publications,
              match projectOutComesReport with
              | Some r => if truthy r then Some (stripHtml r) else None
              | None => None
              end)).

End GrantRoute.

(* ================================================================== *)
(** * Properties of the sampler *)
(* ================================================================== *)

Section SamplerFacts.
Import JS Sampler.
Local Open Scope Z_scope.

(** The floor of [r / 2^32 * range] stays below [range]. *)
Lemma scale_bounds (r range : Z) :
  u32 r -> 0 < range -> 0 <= scale r range < range.
Proof.
  unfold u32, scale. intros Hr Hpos. cbn [Z.add].
  change (4294967295 + 1) with 4294967296.
  split.
  - apply Z.div_pos; nia.
  - apply Z.div_lt_upper_bound; nia.
Qed.

Lemma scale_zero (r : Z) : scale r 0 = 0.
Proof. unfold scale. now rewrite Z.mul_0_r. Qed.

(** Every value below [range] is the image of some draw, as long as the
    range has no more values than there are draws. *)
Lemma scale_onto (range k : Z) :
  0 < range <= 4294967296 -> 0 <= k < range ->
  exists r, u32 r /\ scale r range = k.
Proof.
  intros Hrange Hk.
  set (r := (k * 4294967296 + range - 1) / range).
  assert (Hlo : k * 4294967296 <= r * range).
  { pose proof (Z.mod_pos_bound (k * 4294967296 + range - 1) range
                  ltac:(lia)) as Hm.
    pose proof (Z.div_mod (k * 4294967296 + range - 1) range
                  ltac:(lia)) as Hd.
    fold r in Hd. nia. }
  assert (Hhi : r * range <= k * 4294967296 + range - 1).
  { pose proof (Z.mul_div_le (k * 4294967296 + range - 1) range
                  ltac:(lia)) as Hd.
    fold r in Hd. lia. }
  assert (Hr0 : 0 <= r) by (apply Z.div_pos; nia).
  exists r. split.
  - unfold u32. split; [exact Hr0|]. nia.
  - unfold scale. change (4294967295 + 1) with 4294967296.
    symmetry. apply Z.div_unique with (r := r * range - k * 4294967296).
    + left. lia.
    + lia.
Qed.

(** Strategy A: the identifier lies in [[700000, 2600000]]. *)
Lemma randomId_range (r : Z) :
  u32 r -> 700000 <= randomId r <= 2600000.
Proof.
  intros Hr. unfold randomId, maxId, minId.
  pose proof (@scale_bounds r (2600000 - 700000 + 1) Hr ltac:(lia)). lia.
Qed.

(** Strategy A: every identifier of the range is drawn by some value. *)
Lemma randomId_onto (v : Z) :
  700000 <= v <= 2600000 -> exists r, u32 r /\ randomId r = v.
Proof.
  intros Hv.
  destruct (@scale_onto (maxId - minId + 1) (v - minId)) as (r & Hr & E).
  - unfold maxId, minId. lia.
  - unfold maxId, minId. lia.
  - exists r. split; [exact Hr|]. unfold randomId. rewrite E. lia.
Qed.

(** Strategy B: the offset lies in [[0, N-1]]. *)
Lemma randomOffset_range (r n : Z) :
  u32 r -> 1 <= n -> 0 <= randomOffset r n <= n - 1.
Proof.
  intros Hr Hn. unfold randomOffset.
  destruct (Z.eq_dec n 1) as [->|Hne].
  - change (1 - 1) with 0. rewrite scale_zero. lia.
  - pose proof (@scale_bounds r (n - 1) Hr ltac:(lia)). lia.
Qed.


(** C1.  Strategy B scales the draw by [totalCount - 1] where Strategy A
    scales by the number of values [maxId - minId + 1]: for a capped
    count of at least 2 no draw yields the last offset [N - 1], so the
    last record of the filtered population is never selected. *)
Theorem randomOffset_never_last (r n : Z) :
  u32 r -> 2 <= n -> randomOffset r n < n - 1.
Proof.
  intros Hr Hn. unfold randomOffset.
  pose proof (@scale_bounds r (n - 1) Hr ltac:(lia)). lia.
Qed.

Lemma randomOffset_never_last_witness :
  u32 4294967295 /\ 2 <= 2 /\ randomOffset 4294967295 2 < 2 - 1.
Proof.
  split; [unfold u32; lia|].
  split; [lia|].
  apply (@randomOffset_never_last 4294967295 2); [unfold u32; lia | lia].
Defined.

(** With two matching awards the offset query asks for offset 0 even
    for the largest draw. *)
Example offset_of_two_is_zero :
  snd (run (constWorld 4294967295 2 sampleAward)
           (getRandomGrantByOffset None Completed) tt)
  = [(AwardCount None ExpiredAwards,
      Response true (Some (mkResponse 2 [sampleAward])));
     (AwardAtOffset 0 None ExpiredAwards,
      Response true (Some (mkResponse 2 [sampleAward])))].
Proof. reflexivity. Qed.

(** *** Reading logs *)

Lemma run_bindP {W A B} (env : World W) (p : Prog A) (f : A -> Prog B) (w : W) :
  run env (bindP p f) w =
  let '(a, w1, log1) := run env p w in
  let '(b, w2, log2) := run env (f a) w1 in
  (b, w2, log1 ++ log2).
Proof.
  revert w. induction p as [a | k IH | u k IH]; intros w; cbn.
  - destruct (run env (f a) w) as [[b w2] log2]. reflexivity.
  - destruct (random env w) as [r w1]. apply IH.
  - destruct (http env u w) as [resp w1]. rewrite IH.
    destruct (run env (k resp) w1) as [[a w2] log1].
    destruct (run env (f a) w2) as [[b w3] log2]. reflexivity.
Qed.

(** Offset sampling makes a count query and at most one offset query,
    both with the request's filter, and never looks an identifier up. *)
Lemma offset_log_filter {W} (env : World W) (m : option Z) (s : Status) (w : W) :
  Forall (fun e => carriesFilter m s (fst e))
         (snd (run env (getRandomGrantByOffset m s) w)).
Proof.
  unfold getRandomGrantByOffset. cbn.
  destruct (http env _ w) as [resp w1].
  destruct resp as [|ok [data|]]; cbn.
  - repeat constructor.
  - destruct ok; cbn; [|repeat constructor].
    destruct (capCount data =? 0); cbn; [repeat constructor|].
    destruct (random env w1) as [r w2].
    destruct (http env _ w2) as [resp2 w3]. cbn.
    repeat constructor.
  - destruct ok; cbn; repeat constructor.
Qed.




(** In a run of offset sampling over [N >= 2] counted awards the offset
    query asks for a position below [N - 1]. *)
Lemma offset_query_below_last {W} (env : World W)
    (m : option Z) (s : Status) (w w1 : W) (data : NSFApiResponse) :
  http env (AwardCount (amountFilterOf m) (statusFilterOf s)) w
    = (Response true (Some data), w1) ->
  2 <= capCount data ->
  u32 (fst (random env w1)) ->
  exists o resp,
    snd (run env (getRandomGrantByOffset m s) w)
    = [(AwardCount (amountFilterOf m) (statusFilterOf s),
        Response true (Some data));
       (AwardAtOffset o (amountFilterOf m) (statusFilterOf s), resp)]
    /\ 0 <= o < capCount data - 1.
Proof.
  intros Hcount Hn Hr. unfold getRandomGrantByOffset.
  cbn -[capCount randomOffset]. rewrite Hcount. cbn -[capCount randomOffset].
  destruct (capCount data =? 0) eqn:E; [apply Z.eqb_eq in E; lia|].
  cbn -[capCount randomOffset].
  destruct (random env w1) as [r w2]. cbn in Hr.
  destruct (http env _ w2) as [resp w3]. cbn -[capCount randomOffset].
  exists (randomOffset r (capCount data)), resp. split; [reflexivity|].
  pose proof (randomOffset_range Hr (n := capCount data) ltac:(lia)).
  pose proof (@scale_bounds r (capCount data - 1) Hr ltac:(lia)).
  unfold randomOffset in *. lia.
Qed.

(** C3.  When the count query answers with [totalCount = 0], offset
    sampling returns [null] after that single exchange: no
    offset-indexed lookup is made. *)
Theorem offset_zero_count_not_found {W} (env : World W)
    (m : option Z) (s : Status) (w w1 : W) (ok : bool) (data : NSFApiResponse) :
  http env (AwardCount (amountFilterOf m) (statusFilterOf s)) w
    = (Response ok (Some data), w1) ->
  totalCount data = 0 ->
  run env (getRandomGrantByOffset m s) w
    = (None, w1, [(AwardCount (amountFilterOf m) (statusFilterOf s),
                   Response ok (Some data))])
  /\ filter isOffsetLookup (snd (run env (getRandomGrantByOffset m s) w)) = [].
Proof.
  intros Hcount Hzero.
  assert (E : run env (getRandomGrantByOffset m s) w
              = (None, w1, [(AwardCount (amountFilterOf m) (statusFilterOf s),
                             Response ok (Some data))])).
  { unfold getRandomGrantByOffset. cbn. rewrite Hcount.
    unfold capCount. rewrite Hzero. destruct ok; reflexivity. }
  split; [exact E|]. rewrite E. reflexivity.
Qed.

Lemma offset_zero_count_not_found_witness :
  run (constWorld 7 0 sampleAward) (getRandomGrantByOffset (Some 500000) Active) tt
    = (None, tt, [(AwardCount (Some 500000) ActiveAwards,
                   Response true (Some (mkResponse 0 [sampleAward])))])
  /\ filter isOffsetLookup
       (snd (run (constWorld 7 0 sampleAward)
                 (getRandomGrantByOffset (Some 500000) Active) tt)) = [].
Proof.
  apply (@offset_zero_count_not_found unit (constWorld 7 0 sampleAward)
           (Some 500000) Active tt tt true (mkResponse 0 [sampleAward]));
    reflexivity.
Defined.

(** One pass of the retry loop. *)
Lemma attemptLoop_step {W} (env : World W) (n : nat)
    (fb : Prog (option NSFAward)) (w : W) :
  run env (attemptLoop (S n) fb) w =
  let (r, w1) := random env w in
  let (resp, w2) := http env (AwardById (randomId r)) w1 in
  if goodAward (awardOfLookup resp)
  then (awardOfLookup resp, w2, [(AwardById (randomId r), resp)])
  else let '(res, w3, log) := run env (attemptLoop n fb) w2 in
       (res, w3, (AwardById (randomId r), resp) :: log).
Proof.
  cbn. destruct (random env w) as [r w1].
  destruct (http env (AwardById (randomId r)) w1) as [resp w2].
  destruct (goodAward (awardOfLookup resp)); reflexivity.
Qed.

Lemma attemptLoop_shape {W} (env : World W) (fb : Prog (option NSFAward))
    (n : nat) :
  forall w, loopShape env fb n (run env (attemptLoop n fb) w).
Proof.
  induction n as [|n IH]; intros w.
  - cbn [attemptLoop]. destruct (run env fb w) as [[res w'] log] eqn:E.
    exists [], log. repeat split; auto.
    right. repeat split; auto. now exists w.
  - rewrite attemptLoop_step.
    destruct (random env w) as [r w1].
    destruct (http env (AwardById (randomId r)) w1) as [resp w2].
    destruct (goodAward (awardOfLookup resp)) eqn:G.
    + exists [(AwardById (randomId r), resp)], [].
      repeat split; auto; [cbn; lia|].
      left. exists [], (AwardById (randomId r), resp). repeat split; auto.
    + specialize (IH w2).
      destruct (run env (attemptLoop n fb) w2) as [[res w3] log].
      destruct IH as (tries & rest & -> & Hid & Hlen & Hcase).
      exists ((AwardById (randomId r), resp) :: tries), rest.
      repeat split; auto; [cbn; lia|].
      destruct Hcase as [(pre & e & -> & Hpre & He & Hres & Hrest)
                        |(Hn & Hmiss & w4 & Hfb)].
      * left. exists ((AwardById (randomId r), resp) :: pre), e.
        repeat split; auto. cbn. unfold miss at 1, hit. cbn. now rewrite G.
      * right. repeat split; [cbn; lia| |now exists w4].
        cbn. unfold miss at 1, hit. cbn. now rewrite G.
Qed.










End SamplerFacts.

(* ================================================================== *)
(** * Properties of the citation extractor *)
(* ================================================================== *)

Section CitationFacts.
Import JS Citation.
Local Open Scope outcome_scope.

(** *** The replace loop never runs out of positions *)

Lemma dropWhile_length (f : N -> bool) (s : jsstring) :
  (length (dropWhile f s) <= length s)%nat.
Proof.
  induction s as [|c s IH]; cbn; [lia|].
  destruct (f c); cbn; lia.
Qed.

Lemma emailAt_shorter (s rest : jsstring) :
  Re.emailAt s = Some rest -> (length rest < length s)%nat.
Proof.
  unfold Re.emailAt. destruct s as [|c s]; cbn; [discriminate|].
  destruct (isWhite c); cbn; [|discriminate].
  destruct (Re.innerAt _); [|discriminate].
  intros [= <-].
  pose proof (dropWhile_length Re.notWhite (dropWhile isWhite s)).
  pose proof (dropWhile_length isWhite s). lia.
Qed.

Lemma stripLoop_enough (n : nat) :
  forall m s, (length s <= n)%nat -> (length s <= m)%nat ->
              Re.stripLoop n s = Re.stripLoop m s.
Proof.
  induction n as [|n IH]; intros m s Hn Hm.
  - destruct s; [|cbn in Hn; lia]. destruct m; reflexivity.
  - destruct m as [|m].
    + destruct s; [reflexivity | cbn in Hm; lia].
    + cbn [Re.stripLoop]. destruct s as [|c s]; [reflexivity|].
      destruct (Re.emailAt (c :: s)) as [rest|] eqn:E.
      * apply emailAt_shorter in E. cbn in *. apply IH; lia.
      * cbn in *. f_equal. apply IH; lia.
Qed.

(** The positions [stripEmails] allots are enough: more change nothing. *)
Lemma stripEmails_fuel (n : nat) (s : jsstring) :
  (length s <= n)%nat -> Re.stripLoop n s = Re.stripEmails s.
Proof. intros H. unfold Re.stripEmails. now apply stripLoop_enough. Qed.

(** *** Array reads inside the loop bounds are defined *)

Lemma at_in_range {A} (a : list A) (i : Z) :
  (0 <= i < Z.of_nat (length a))%Z -> exists x, at_ a i = Some x.
Proof.
  intros [Hlo Hhi]. unfold at_.
  destruct (i <? 0)%Z eqn:E; [apply Z.ltb_lt in E; lia|].
  destruct (nth_error a (Z.to_nat i)) as [x|] eqn:N; [now exists x|].
  apply nth_error_None in N. lia.
Qed.

Lemma trimOf_truthy (x : option jsstring) :
  truthy_opt x = true -> exists s, x = Some s /\ trimOf x = Ok (trim s).
Proof. destruct x as [s|]; cbn; [eauto | discriminate]. Qed.

Lemma withinArray_step parts n i :
  withinArray parts (S n) i ->
  (exists x, at_ parts i = Some x) /\ withinArray parts n (i + 1).
Proof.
  unfold withinArray. intros [Hlo Hhi]. split.
  - apply at_in_range. lia.
  - lia.
Qed.

Lemma doiLoop_total parts n :
  forall i, withinArray parts n i -> exists r, doiLoop parts n i = Ok r.
Proof.
  induction n as [|n IH]; intros i Hw; cbn [doiLoop].
  - eauto.
  - apply withinArray_step in Hw. destruct Hw as [[x Hx] Hw].
    rewrite Hx. cbn. destruct (doiShaped (trim x)); eauto.
Qed.

Lemma yearLoop_total parts n :
  forall i, withinArray parts n i -> exists r, yearLoop parts n i = Ok r.
Proof.
  induction n as [|n IH]; intros i Hw; cbn [yearLoop].
  - eauto.
  - apply withinArray_step in Hw. destruct Hw as [[x Hx] Hw].
    rewrite Hx. cbn. destruct (Re.year4 (trim x)); eauto.
Qed.

Lemma titleLoop_total parts n :
  forall i, withinArray parts n i -> exists t, titleLoop parts n i = Ok t.
Proof.
  induction n as [|n IH]; intros i Hw; cbn [titleLoop].
  - eauto.
  - apply withinArray_step in Hw. destruct Hw as [[x Hx] Hw].
    rewrite Hx. cbn. destruct (titleLike (trim x)); eauto.
Qed.

Lemma titleScan_total parts start :
  (0 <= start)%Z -> exists t, titleScan parts start = Ok t.
Proof.
  intros Hs. unfold titleScan.
  destruct (Z.to_nat (Z.of_nat (length parts) - start)) as [|n] eqn:E.
  - cbn. eauto.
  - apply titleLoop_total. unfold withinArray. lia.
Qed.

(** The fields as first chosen are always produced. *)
Lemma dispatch_total (pub : jsstring) : exists p, dispatch pub = Ok p.
Proof.
  unfold dispatch. set (parts := split tilde pub).
  destruct (@doiLoop_total parts (length parts) 0) as [[doi0 doiIndex] ->].
  { unfold withinArray. lia. }
  destruct (@yearLoop_total parts (Nat.min (length parts) 4) 0)
    as [[year0 yearIndex] ->].
  { unfold withinArray. lia. }
  cbn [bind].
  destruct (Re.year4 (firstPartOf parts)).
  - (* year first *)
    assert (Ha : exists a, (if truthy_opt (at_ parts 1)
                            then trimOf (at_ parts 1) else Ok []) = Ok a).
    { destruct (truthy_opt (at_ parts 1)) eqn:T; [|eauto].
      destruct (trimOf_truthy _ T) as (s & _ & ->). eauto. }
    destruct Ha as [a ->]. cbn [bind].
    assert (Ht : exists t,
      (if (0 <=? doiIndex)%Z && truthy_opt (at_ parts (doiIndex + 1))
       then trimOf (at_ parts (doiIndex + 1))
       else if truthy_opt (at_ parts 3) then trimOf (at_ parts 3)
       else if truthy_opt (at_ parts 2) then
         hasDoi <- includesOf (js "doi") (at_ parts 2) ;;
         if negb hasDoi then trimOf (at_ parts 2) else Ok []
       else Ok []) = Ok t).
    { destruct ((0 <=? doiIndex)%Z && truthy_opt (at_ parts (doiIndex + 1)))
        eqn:D.
      - apply andb_true_iff in D. destruct D as [_ T].
        destruct (trimOf_truthy _ T) as (s & _ & ->). eauto.
      - destruct (truthy_opt (at_ parts 3)) eqn:T3.
        + destruct (trimOf_truthy _ T3) as (s & _ & ->). eauto.
        + destruct (truthy_opt (at_ parts 2)) eqn:T2; [|eauto].
          destruct (trimOf_truthy _ T2) as (s & -> & _). cbn.
          match goal with
          | |- context [if ?c then _ else _] => destruct c
          end; eauto. }
    destruct Ht as [t ->]. cbn [bind]. eauto.
  - (* journal first *)
    destruct ((0 <=? yearIndex)%Z && truthy_opt (at_ parts (yearIndex + 1)))
      eqn:Y; [|eauto].
    apply andb_true_iff in Y. destruct Y as [Hy _].
    apply Z.leb_le in Hy.
    match goal with
    | |- context [if ?c then _ else _] => destruct c eqn:V
    end.
    + apply andb_true_iff in V. destruct V as [_ T].
      destruct (trimOf_truthy _ T) as (s & _ & ->). cbn [bind].
      destruct (@titleScan_total parts (yearIndex + 3)) as [t ->]; [lia|].
      cbn [bind]. eauto.
    + destruct (@titleScan_total parts (yearIndex + 2)) as [t ->]; [lia|].
      cbn [bind]. eauto.
Qed.

Lemma extract_total (pub : jsstring) : exists p, extract pub = Ok p.
Proof.
  unfold extract. destruct (dispatch_total pub) as [p ->]. cbn. eauto.
Qed.

Lemma mapM_extract_total (l : list jsstring) :
  exists pubs, mapM extract l = Ok pubs
               /\ Forall2 (fun raw p => extract raw = Ok p) l pubs.
Proof.
  induction l as [|raw l (pubs & E & F)]; cbn [mapM].
  - exists []. split; [reflexivity | constructor].
  - destruct (extract_total raw) as [p Hp]. rewrite Hp, E. cbn.
    exists (p :: pubs). split; [reflexivity | now constructor].
Qed.


(** *** The steps after the dispatch *)

Lemma extract_after_dispatch (pub : jsstring) (p : Publication) :
  dispatch pub = Ok p ->
  extract pub = Ok (cleanAuthors (rejectTitle (swapCorrection p))).
Proof. intros E. unfold extract. now rewrite E. Qed.

Lemma later_steps_keep_doi (p : Publication) :
  doi (cleanAuthors (rejectTitle (swapCorrection p))) = doi p.
Proof.
  unfold cleanAuthors, rejectTitle, swapCorrection.
  destruct (looksSwapped (title p) (authors p)); cbn;
    match goal with
    | |- context [if ?c then _ else _] => destruct c
    end; reflexivity.
Qed.

(** *** The DOI scan finds the first DOI-shaped trimmed token *)

Lemma at_app_here {A} (pre : list A) (x : A) (l : list A) :
  at_ (pre ++ x :: l) (Z.of_nat (length pre)) = Some x.
Proof.
  unfold at_.
  destruct (Z.of_nat (length pre) <? 0)%Z eqn:E; [apply Z.ltb_lt in E; lia|].
  rewrite Nat2Z.id, nth_error_app2 by lia.
  now rewrite Nat.sub_diag.
Qed.

Lemma doiLoop_find (l : list jsstring) :
  forall pre, exists i,
    doiLoop (pre ++ l) (length l) (Z.of_nat (length pre))
    = Ok (doiOfFirst (map trim l), i).
Proof.
  unfold doiOfFirst.
  induction l as [|x l IH]; intros pre; cbn [doiLoop length map find].
  - eauto.
  - rewrite at_app_here. cbn [trimOf bind].
    destruct (doiShaped (trim x)); [eauto|].
    destruct (IH (pre ++ [x])) as [i Hi].
    rewrite <- app_assoc, length_app in Hi. cbn [app length] in Hi.
    replace (Z.of_nat (length pre + 1)) with (Z.of_nat (length pre) + 1)%Z in Hi
      by lia.
    eauto.
Qed.

Lemma dispatch_doi (pub : jsstring) (p : Publication) :
  dispatch pub = Ok p ->
  exists i, doiLoop (split tilde pub) (length (split tilde pub)) 0
            = Ok (doi p, i).
Proof.
  unfold dispatch.
  destruct (doiLoop (split tilde pub) (length (split tilde pub)) 0)
    as [[d i]|]; [|discriminate].
  cbn [bind].
  destruct (yearLoop _ _ _) as [[y yi]|]; [|discriminate].
  cbn [bind].
  repeat match goal with
         | |- context [bind ?m _] => destruct m; cbn [bind]
         | |- context [if ?c then _ else _] => destruct c
         end;
    try discriminate; intros [= <-]; cbn; eauto.
Qed.

Lemma extract_doi (pub : jsstring) :
  exists out, extract pub = Ok out
              /\ doi out = doiOfFirst (map trim (split tilde pub)).
Proof.
  destruct (dispatch_total pub) as [p Hp].
  exists (cleanAuthors (rejectTitle (swapCorrection p))).
  split; [now apply extract_after_dispatch|].
  rewrite later_steps_keep_doi.
  destruct (dispatch_doi _ Hp) as [i Hi].
  destruct (doiLoop_find (split tilde pub) []) as [j Hj].
  cbn [app length Z.of_nat] in Hj. rewrite Hj in Hi.
  now injection Hi as <- _.
Qed.


(** C10.  A DOI-shaped token without the substring "http" gets
    "https://doi.org/" put in front of the whole trimmed token; a token
    that already names the resolver host without a scheme therefore
    comes out with the host twice. *)
Theorem doi_prefix_prepended (pub p : jsstring) :
  find doiShaped (map trim (split tilde pub)) = Some p ->
  includes (js "http") p = false ->
  (exists out, extract pub = Ok out /\ doi out = js "https://doi.org/" ++ p)
  /\ parsePublications [hostOnlyDoiRaw]
     = Ok [mkPublication (js "2020") (js "A. Author")
             (js "Some Title Here Long")
             (js "https://doi.org/doi.org/10.1000/x") []].
Proof.
  intros Hfind Hhttp. split; [|vm_compute; reflexivity].
  destruct (extract_doi pub) as (out & E & D).
  exists out. split; [exact E|].
  rewrite D. unfold doiOfFirst. rewrite Hfind.
  unfold normalizeDoi. now rewrite Hhttp.
Qed.

Lemma doi_prefix_prepended_witness :
  find doiShaped (map trim (split tilde (js "Science~2020~ doi.org/10.1000/x ~Title")))
    = Some (js "doi.org/10.1000/x")
  /\ includes (js "http") (js "doi.org/10.1000/x") = false
  /\ (exists out,
        extract (js "Science~2020~ doi.org/10.1000/x ~Title") = Ok out
        /\ doi out = js "https://doi.org/" ++ js "doi.org/10.1000/x")
  /\ parsePublications [hostOnlyDoiRaw]
     = Ok [mkPublication (js "2020") (js "A. Author")
             (js "Some Title Here Long")
             (js "https://doi.org/doi.org/10.1000/x") []].
Proof.
  split; [vm_compute; reflexivity|].
  split; [vm_compute; reflexivity|].
  apply (@doi_prefix_prepended (js "Science~2020~ doi.org/10.1000/x ~Title")
                               (js "doi.org/10.1000/x"));
    vm_compute; reflexivity.
Defined.

(** C5.  The year-first example of the specification. *)
Theorem year_first_example :
  parsePublications [yearFirstRaw]
  = Ok [mkPublication (js "2019") (js "Jane Doe and John Smith")
          (js "A Study of Something Important")
          (js "https://doi.org/10.1000/xyz123") []].
Proof. vm_compute. reflexivity. Qed.

(** C6.  The journal-first example: the token "5" after the year is
    purely numeric and is skipped as a volume, the authors are the token
    after it, and the title is the first later token that looks like a
    title. *)
Theorem journal_first_example :
  let parts := split tilde journalFirstRaw in
  parsePublications [journalFirstRaw]
  = Ok [mkPublication (js "2021") (js "A. Author and B. Author")
          (js "A Long And Meaningful Title About Research") []
          (js "Nature")]
  /\ yearLoop parts (Nat.min (length parts) 4) 0 = Ok (js "2021", 1%Z)
  /\ at_ parts 2 = Some (js "5")
  /\ Re.digits (js "5") = true
  /\ titleScan parts 4 = Ok (js "A Long And Meaningful Title About Research")
  /\ titleLike (js "A Long And Meaningful Title About Research") = true.
Proof. vm_compute. repeat split; reflexivity. Qed.


(** C9.  Extraction never raises: every array read of the callback is
    inside the array or guarded, so each raw string yields a
    [Publication] and every list yields a list.  The empty string gives
    the all-empty record, and it and the noise input "N~~~" are dropped
    by the filter. *)
Theorem extract_never_fails :
  (forall pub, exists p, extract pub = Ok p)
  /\ (forall l, exists pubs, parsePublications l = Ok pubs)
  /\ extract [] = Ok (mkPublication [] [] [] [] [])
  /\ parsePublications [[]] = Ok []
  /\ extract (js "N~~~") = Ok (mkPublication [] [] [] [] (js "N"))
  /\ parsePublications [js "N~~~"] = Ok [].
Proof.
  split; [exact extract_total|].
  split.
  - intros l. destruct (mapM_extract_total l) as (pubs & E & _).
    exists (filter accepted pubs). unfold parsePublications. now rewrite E.
  - vm_compute. repeat split; reflexivity.
Qed.





End CitationFacts.


(* ================================================================== *)
(** * Further properties of the sampler *)
(* ================================================================== *)

Section SamplerMore.
Import JS Sampler SamplerObs.
Local Open Scope Z_scope.

(** X1.  [generateRandomAwardId] is as uniform as 2^32 draws allow: the
    draws that give an identifier [v] of the range are the interval
    from [firstDrawOf (v - minId)] up to [firstDrawOf (v - minId + 1)],
    which holds 2260 or 2261 draws. *)
Theorem randomId_near_uniform (v : Z) :
  700000 <= v <= 2600000 ->
  0 <= firstDrawOf (v - minId)
  /\ firstDrawOf (v - minId + 1) <= 4294967296
  /\ 2260 <= firstDrawOf (v - minId + 1) - firstDrawOf (v - minId) <= 2261
  /\ forall r, u32 r ->
       (randomId r = v
        <-> firstDrawOf (v - minId) <= r < firstDrawOf (v - minId + 1)).
Proof.
  intros Hv. unfold firstDrawOf, randomId, scale, u32, maxId, minId.
  change (2600000 - 700000 + 1) with 1900001.
  change (4294967295 + 1) with 4294967296.
  set (k := v - 700000). assert (Hk : 0 <= k < 1900001) by (unfold k; lia).
  pose proof (Z.div_mod (k * 4294967296 + 1900001 - 1) 1900001 ltac:(lia)) as D1.
  pose proof (Z.mod_pos_bound (k * 4294967296 + 1900001 - 1) 1900001 ltac:(lia)) as M1.
  pose proof (Z.div_mod ((k + 1) * 4294967296 + 1900001 - 1) 1900001 ltac:(lia)) as D2.
  pose proof (Z.mod_pos_bound ((k + 1) * 4294967296 + 1900001 - 1) 1900001 ltac:(lia)) as M2.
  set (lo := (k * 4294967296 + 1900001 - 1) / 1900001) in *.
  set (hi := ((k + 1) * 4294967296 + 1900001 - 1) / 1900001) in *.
  split; [lia|]. split; [lia|]. split; [lia|].
  intros r Hr.
  pose proof (Z.div_mod (r * 1900001) 4294967296 ltac:(lia)) as D.
  pose proof (Z.mod_pos_bound (r * 1900001) 4294967296 ltac:(lia)) as M.
  split.
  - intros E. lia.
  - intros [Hlo Hhi].
    assert (E : r * 1900001 / 4294967296 = k); [|lia].
    symmetry. apply Z.div_unique with (r := r * 1900001 - k * 4294967296); lia.
Qed.

Lemma randomId_near_uniform_witness :
  700000 <= 700001 <= 2600000
  /\ 0 <= firstDrawOf (700001 - minId)
  /\ firstDrawOf (700001 - minId + 1) <= 4294967296
  /\ 2260 <= firstDrawOf (700001 - minId + 1) - firstDrawOf (700001 - minId)
     <= 2261
  /\ forall r, u32 r ->
       (randomId r = 700001
        <-> firstDrawOf (700001 - minId) <= r
            < firstDrawOf (700001 - minId + 1)).
Proof.
  split; [lia|]. apply (@randomId_near_uniform 700001). lia.
Defined.

(** X2.  For a capped count [n] of 2 to 3000, the offsets Strategy B can
    draw are exactly [0 .. n-2]. *)
Theorem randomOffset_image (n o : Z) :
  2 <= n <= 3000 ->
  ((exists r, u32 r /\ randomOffset r n = o) <-> 0 <= o <= n - 2).
Proof.
  intros Hn. unfold randomOffset. split.
  - intros (r & Hr & <-).
    pose proof (@scale_bounds r (n - 1) Hr ltac:(lia)). lia.
  - intros Ho. apply scale_onto; lia.
Qed.

Lemma randomOffset_image_witness :
  2 <= 3000 <= 3000
  /\ ((exists r, u32 r /\ randomOffset r 3000 = 2998) <-> 0 <= 2998 <= 3000 - 2).
Proof.
  split; [lia|]. apply (@randomOffset_image 3000 2998). lia.
Defined.


(** *** The two shapes of a run of offset sampling *)

Lemma awardOfLookup_some (resp : FetchResult) (a : NSFAward) :
  awardOfLookup resp = Some a ->
  exists data, resp = Response true (Some data) /\ firstAward data = Some a.
Proof.
  destruct resp as [|[|] [data|]]; cbn; try discriminate.
  intros H. now exists data.
Qed.

Lemma offset_run_cases {W} (env : World W) (m : option Z) (s : Status) (w : W) :
  let cu := AwardCount (amountFilterOf m) (statusFilterOf s) in
  (exists resp w1,
      http env cu w = (resp, w1)
      /\ run env (getRandomGrantByOffset m s) w = (None, w1, [(cu, resp)])
      /\ (usable resp = false
          \/ exists data, resp = Response true (Some data) /\ capCount data = 0))
  \/ (exists data w1 r w2 resp2 w3,
        http env cu w = (Response true (Some data), w1)
        /\ capCount data <> 0
        /\ random env w1 = (r, w2)
        /\ http env (AwardAtOffset (randomOffset r (capCount data))
                                   (amountFilterOf m) (statusFilterOf s)) w2
           = (resp2, w3)
        /\ run env (getRandomGrantByOffset m s) w
           = (awardOfLookup resp2, w3,
              [(cu, Response true (Some data));
               (AwardAtOffset (randomOffset r (capCount data))
                              (amountFilterOf m) (statusFilterOf s), resp2)])).
Proof.
  intros cu. unfold getRandomGrantByOffset. fold cu.
  cbn -[capCount randomOffset].
  destruct (http env cu w) as [resp w1] eqn:Hc.
  destruct resp as [|ok [data|]].
  - left. exists Rejected, w1. repeat split; auto.
  - destruct ok; cbn -[capCount randomOffset].
    + destruct (capCount data =? 0) eqn:E; cbn -[capCount randomOffset].
      * left. exists (Response true (Some data)), w1. repeat split; auto.
        right. exists data. split; [reflexivity | now apply Z.eqb_eq].
      * right. destruct (random env w1) as [r w2] eqn:Hr.
        destruct (http env (AwardAtOffset (randomOffset r (capCount data))
                              (amountFilterOf m) (statusFilterOf s)) w2)
          as [resp2 w3] eqn:Ho.
        exists data, w1, r, w2, resp2, w3. repeat split; auto.
        now apply Z.eqb_neq.
    + left. exists (Response false (Some data)), w1. repeat split; auto.
  - left. exists (Response ok None), w1.
    destruct ok; repeat split; auto.
Qed.

Lemma offset_log_length {W} (env : World W) (m : option Z) (s : Status) (w : W) :
  (1 <= length (snd (run env (getRandomGrantByOffset m s) w)) <= 2)%nat.
Proof.
  destruct (offset_run_cases env m s w)
    as [(resp & w1 & _ & -> & _)|(d & w1 & r & w2 & resp2 & w3 & _ & _ & _ & _ & ->)];
    cbn; lia.
Qed.

(** X3.  The load on the registry is bounded in every world: offset
    sampling makes one or two requests, and [getRandomGrant] at most 22
    (20 identifier lookups, the count query and the offset query). *)
Theorem network_budget {W} (env : World W) (m : option Z) (s : Status) (w : W) :
  (1 <= length (snd (run env (getRandomGrantByOffset m s) w)) <= 2)%nat
  /\ (1 <= length (snd (run env (getRandomGrant m s) w)) <= 22)%nat.
Proof.
  split; [apply offset_log_length|].
  unfold getRandomGrant. destruct (filtered m s).
  - pose proof (offset_log_length env m s w). lia.
  - pose proof (attemptLoop_shape env (getRandomGrantByOffset m s) maxAttempts w)
      as H.
    destruct (run env (attemptLoop maxAttempts (getRandomGrantByOffset m s)) w)
      as [[res w'] log].
    destruct H as (tries & rest & -> & _ & Hlen & Hcase). cbn [snd].
    rewrite length_app. unfold maxAttempts in *.
    destruct Hcase as [(pre & e & -> & _ & _ & _ & ->)|(Hn & _ & w1 & Hfb)].
    + rewrite length_app in *. cbn in *. lia.
    + pose proof (offset_log_length env m s w1) as Hl.
      rewrite Hfb in Hl. cbn [snd] in Hl. lia.
Qed.

(** X4.  Offset sampling fails soft at the count step: when [fetch]
    rejects, the response is not [ok] or its body does not parse, the
    result is [null] after that one request; no random value is drawn
    and no offset query is made. *)
Theorem offset_count_failure {W} (env : World W)
    (m : option Z) (s : Status) (w w1 : W) (resp : FetchResult) :
  http env (AwardCount (amountFilterOf m) (statusFilterOf s)) w = (resp, w1) ->
  usable resp = false ->
  run env (getRandomGrantByOffset m s) w
  = (None, w1, [(AwardCount (amountFilterOf m) (statusFilterOf s), resp)]).
Proof.
  intros Hc Hu.
  destruct (offset_run_cases env m s w)
    as [(resp' & w1' & Hc' & E & _)|(d & w1' & r & w2 & resp2 & w3 & Hc' & _)];
    rewrite Hc in Hc'.
  - now injection Hc' as <- <-.
  - injection Hc' as -> _. discriminate Hu.
Qed.

Lemma offset_count_failure_witness :
  http (mkWorld (fun w : unit => (7, w)) (fun _ w => (Response false None, w)))
       (AwardCount (amountFilterOf None) (statusFilterOf Active)) tt
  = (Response false None, tt)
  /\ usable (Response false None) = false
  /\ run (mkWorld (fun w : unit => (7, w)) (fun _ w => (Response false None, w)))
         (getRandomGrantByOffset None Active) tt
     = (None, tt,
        [(AwardCount (amountFilterOf None) (statusFilterOf Active),
          Response false None)]).
Proof.
  split; [reflexivity|]. split; [reflexivity|].
  apply (@offset_count_failure unit
           (mkWorld (fun w : unit => (7, w)) (fun _ w => (Response false None, w)))
           None Active tt tt (Response false None)); reflexivity.
Defined.

(** X5.  The sampler never makes an award up: an award returned by
    [getRandomGrant] is the first award of the body of the last
    exchange of the run, and that exchange is not the count query. *)
Theorem returned_award_provenance {W} (env : World W)
    (m : option Z) (s : Status) (w : W) (a : NSFAward) :
  fst (fst (run env (getRandomGrant m s) w)) = Some a ->
  exists pre u data,
    snd (run env (getRandomGrant m s) w)
    = pre ++ [(u, Response true (Some data))]
    /\ firstAward data = Some a
    /\ isCountQuery (u, Response true (Some data)) = false.
Proof.
  assert (Hoff : forall w0,
    fst (fst (run env (getRandomGrantByOffset m s) w0)) = Some a ->
    exists pre u data,
      snd (run env (getRandomGrantByOffset m s) w0)
      = pre ++ [(u, Response true (Some data))]
      /\ firstAward data = Some a
      /\ isCountQuery (u, Response true (Some data)) = false).
  { intros w0 Hres.
    destruct (offset_run_cases env m s w0)
      as [(resp & w1 & _ & E & _)
         |(d & w1 & r & w2 & resp2 & w3 & _ & _ & _ & _ & E)];
      rewrite E in *; cbn [fst snd] in *; [discriminate|].
    destruct (awardOfLookup_some _ Hres) as (data & -> & Hfirst).
    eexists [_], _, data. repeat split; auto. }
  unfold getRandomGrant. destruct (filtered m s); [apply Hoff|].
  pose proof (attemptLoop_shape env (getRandomGrantByOffset m s) maxAttempts w)
    as H.
  destruct (run env (attemptLoop maxAttempts (getRandomGrantByOffset m s)) w)
    as [[res w'] log].
  destruct H as (tries & rest & -> & Hid & _ & Hcase). cbn [fst snd].
  intros ->.
  destruct Hcase as [(pre & [u resp] & -> & _ & _ & Hres & ->)
                    |(_ & _ & w1 & Hfb)].
  - cbn [snd] in Hres. symmetry in Hres.
    destruct (awardOfLookup_some _ Hres) as (data & -> & Hfirst).
    rewrite app_nil_r. exists pre, u, data. repeat split; auto.
    rewrite forallb_app in Hid. apply andb_true_iff in Hid.
    destruct Hid as [_ Hid]. cbn in Hid. rewrite andb_true_r in Hid.
    unfold isIdLookup in Hid. unfold isCountQuery. cbn [fst] in *.
    destruct u; [reflexivity | discriminate | discriminate].
  - specialize (Hoff w1). rewrite Hfb in Hoff. cbn [fst snd] in Hoff.
    destruct (Hoff eq_refl) as (pre & u & data & -> & Hfirst & Hq).
    exists (tries ++ pre), u, data. rewrite app_assoc. repeat split; auto.
Qed.

Lemma returned_award_provenance_witness :
  fst (fst (run (constWorld 0 5 sampleAward) (getRandomGrant None Completed) tt))
  = Some sampleAward
  /\ exists pre u data,
       snd (run (constWorld 0 5 sampleAward) (getRandomGrant None Completed) tt)
       = pre ++ [(u, Response true (Some data))]
       /\ firstAward data = Some sampleAward
       /\ isCountQuery (u, Response true (Some data)) = false.
Proof.
  split; [reflexivity|].
  apply (@returned_award_provenance unit (constWorld 0 5 sampleAward)
           None Completed tt sampleAward).
  reflexivity.
Defined.


Lemma goodAward_some (res : option NSFAward) :
  goodAward res = true ->
  exists a, res = Some a /\ (100 < length (abstractText a))%nat.
Proof.
  destruct res as [a|]; cbn; [|discriminate].
  intros H. apply andb_true_iff in H. destruct H as [_ H].
  exists a. split; [reflexivity | now apply Nat.ltb_lt].
Qed.

(** X6.  The quality check belongs to Strategy A alone: when a request
    without filter is answered without any count query, the result is
    an award whose abstract is longer than 100 code units. *)
Theorem unfiltered_hit_has_long_abstract {W} (env : World W)
    (m : option Z) (s : Status) (w : W) :
  filtered m s = false ->
  existsb isCountQuery (snd (run env (getRandomGrant m s) w)) = false ->
  exists a,
    fst (fst (run env (getRandomGrant m s) w)) = Some a
    /\ (100 < length (abstractText a))%nat.
Proof.
  intros Hf. unfold getRandomGrant. rewrite Hf.
  pose proof (attemptLoop_shape env (getRandomGrantByOffset m s) maxAttempts w)
    as H.
  destruct (run env (attemptLoop maxAttempts (getRandomGrantByOffset m s)) w)
    as [[res w'] log].
  destruct H as (tries & rest & -> & _ & _ & Hcase). cbn [fst snd].
  intros Hno.
  destruct Hcase as [(pre & e & -> & _ & He & -> & ->)|(_ & _ & w1 & Hfb)].
  - apply goodAward_some. exact He.
  - exfalso. rewrite existsb_app in Hno. apply orb_false_iff in Hno.
    destruct Hno as [_ Hno].
    destruct (offset_run_cases env m s w1)
      as [(resp & w2 & _ & E & _)
         |(d & w2 & r & w3 & resp2 & w4 & _ & _ & _ & _ & E)];
      rewrite E in Hfb; injection Hfb as _ _ <-; cbn in Hno; discriminate.
Qed.

Lemma unfiltered_hit_has_long_abstract_witness :
  filtered None Completed = false
  /\ existsb isCountQuery
       (snd (run (constWorld 0 5 sampleAward) (getRandomGrant None Completed) tt))
     = false
  /\ exists a,
       fst (fst (run (constWorld 0 5 sampleAward)
                     (getRandomGrant None Completed) tt)) = Some a
       /\ (100 < length (abstractText a))%nat.
Proof.
  split; [reflexivity|]. split; [reflexivity|].
  apply (@unfiltered_hit_has_long_abstract unit (constWorld 0 5 sampleAward)
           None Completed tt); reflexivity.
Defined.

Lemma scale_upper (r range : Z) :
  u32 r -> range <= 2999 -> scale r range <= 2998.
Proof.
  intros Hr Hrange. destruct (Z_lt_le_dec 0 range) as [Hpos|Hneg].
  - pose proof (@scale_bounds r range Hr Hpos). lia.
  - unfold scale, u32 in *. change (4294967295 + 1) with 4294967296.
    assert (r * range / 4294967296 <= 0); [|lia].
    apply Z.div_le_upper_bound; nia.
Qed.

(** X7.  With 32-bit draws, no offset query of a run asks for a position
    beyond 2998, whatever total the registry reports: the cap of 3000
    keeps every offset inside the registry's limit. *)
Theorem offset_within_api_limit {W} (env : World W)
    (m : option Z) (s : Status) (w : W)
    (o : Z) (af : option Z) (sf : StatusFilter) (resp : FetchResult) :
  drawsU32 env ->
  In (AwardAtOffset o af sf, resp) (snd (run env (getRandomGrant m s) w)) ->
  o <= 2998.
Proof.
  intros Hdraw.
  assert (Hoff : forall w0,
    In (AwardAtOffset o af sf, resp)
       (snd (run env (getRandomGrantByOffset m s) w0)) -> o <= 2998).
  { intros w0 Hin.
    destruct (offset_run_cases env m s w0)
      as [(resp0 & w1 & _ & E & _)
         |(d & w1 & r & w2 & resp2 & w3 & _ & _ & Hr & _ & E)];
      rewrite E in Hin; cbn [snd] in Hin.
    - destruct Hin as [Hin|[]]. discriminate Hin.
    - destruct Hin as [Hin|[Hin|[]]]; [discriminate Hin|].
      injection Hin as <- _ _ _.
      unfold randomOffset. apply scale_upper.
      + specialize (Hdraw w1). now rewrite Hr in Hdraw.
      + unfold capCount. lia. }
  unfold getRandomGrant. destruct (filtered m s); [apply Hoff|].
  pose proof (attemptLoop_shape env (getRandomGrantByOffset m s) maxAttempts w)
    as H.
  destruct (run env (attemptLoop maxAttempts (getRandomGrantByOffset m s)) w)
    as [[res w'] log].
  destruct H as (tries & rest & -> & Hid & _ & Hcase). cbn [snd].
  intros Hin. apply in_app_or in Hin. destruct Hin as [Hin|Hin].
  - rewrite forallb_forall in Hid. specialize (Hid _ Hin). discriminate Hid.
  - destruct Hcase as [(_ & _ & _ & _ & _ & _ & ->)|(_ & _ & w1 & Hfb)];
      [destruct Hin|].
    apply (Hoff w1). now rewrite Hfb.
Qed.

Lemma offset_within_api_limit_witness :
  drawsU32 (constWorld 4294967295 1000000 sampleAward)
  /\ In (AwardAtOffset 2998 (Some 5) ActiveAwards,
         Response true (Some (mkResponse 1000000 [sampleAward])))
        (snd (run (constWorld 4294967295 1000000 sampleAward)
                  (getRandomGrant (Some 5) Active) tt))
  /\ 2998 <= 2998.
Proof.
  assert (Hd : drawsU32 (constWorld 4294967295 1000000 sampleAward)).
  { intros w. cbn. unfold u32. lia. }
  assert (Hin : In (AwardAtOffset 2998 (Some 5) ActiveAwards,
                    Response true (Some (mkResponse 1000000 [sampleAward])))
                   (snd (run (constWorld 4294967295 1000000 sampleAward)
                             (getRandomGrant (Some 5) Active) tt))).
  { right. left. reflexivity. }
  split; [exact Hd|]. split; [exact Hin|].
  exact (@offset_within_api_limit unit _ (Some 5) Active tt 2998 (Some 5)
           ActiveAwards _ Hd Hin).
Defined.

Lemma attemptLoop_ids_in_range {W} (env : World W)
    (fb : Prog (option NSFAward)) (P : Exchange -> Prop) (n : nat) :
  drawsU32 env ->
  (forall i resp, 700000 <= i <= 2600000 -> P (AwardById i, resp)) ->
  (forall w, Forall P (snd (run env fb w))) ->
  forall w, Forall P (snd (run env (attemptLoop n fb) w)).
Proof.
  intros Hdraw Hid Hfb. induction n as [|n IH]; intros w; [apply Hfb|].
  rewrite attemptLoop_step.
  pose proof (Hdraw w) as Hr.
  destruct (random env w) as [r w1]. cbn [fst] in Hr.
  destruct (http env (AwardById (randomId r)) w1) as [resp w2].
  pose proof (randomId_range Hr) as Hrange.
  destruct (goodAward (awardOfLookup resp)).
  - cbn [snd]. constructor; [now apply Hid | constructor].
  - specialize (IH w2).
    destruct (run env (attemptLoop n fb) w2) as [[res w3] log].
    cbn [snd] in *. constructor; [now apply Hid | exact IH].
Qed.

(** X22.  With 32-bit draws, every identifier [getRandomGrant] looks up
    lies in [[700000, 2600000]], in every world and on every attempt. *)
Theorem looked_up_ids_in_range {W} (env : World W)
    (m : option Z) (s : Status) (w : W) (i : Z) (resp : FetchResult) :
  drawsU32 env ->
  In (AwardById i, resp) (snd (run env (getRandomGrant m s) w)) ->
  700000 <= i <= 2600000.
Proof.
  intros Hdraw Hin.
  set (P := fun e : Exchange =>
              match fst e with
              | AwardById j => 700000 <= j <= 2600000
              | _ => True
              end).
  assert (Hoff : forall w0, Forall P (snd (run env (getRandomGrantByOffset m s) w0))).
  { intros w0. eapply Forall_impl; [|apply (offset_log_filter env m s w0)].
    intros [u r]. unfold P, carriesFilter. cbn [fst]. destruct u; tauto. }
  assert (Hall : Forall P (snd (run env (getRandomGrant m s) w))).
  { unfold getRandomGrant. destruct (filtered m s); [apply Hoff|].
    apply attemptLoop_ids_in_range; auto. }
  rewrite Forall_forall in Hall. exact (Hall _ Hin).
Qed.

Lemma looked_up_ids_in_range_witness :
  drawsU32 (constWorld 4294967295 5 sampleAward)
  /\ In (AwardById 2600000,
         Response true (Some (mkResponse 5 [sampleAward])))
        (snd (run (constWorld 4294967295 5 sampleAward)
                  (getRandomGrant None Completed) tt))
  /\ 700000 <= 2600000 <= 2600000.
Proof.
  assert (Hd : drawsU32 (constWorld 4294967295 5 sampleAward)).
  { intros w. cbn. unfold u32. lia. }
  assert (Hin : In (AwardById 2600000,
                    Response true (Some (mkResponse 5 [sampleAward])))
                   (snd (run (constWorld 4294967295 5 sampleAward)
                             (getRandomGrant None Completed) tt))).
  { left. reflexivity. }
  split; [exact Hd|]. split; [exact Hin|].
  exact (@looked_up_ids_in_range unit _ None Completed tt 2600000 _ Hd Hin).
Defined.

End SamplerMore.

(* ================================================================== *)
(** * Further properties of the citation extractor *)
(* ================================================================== *)

Section CitationMore.
Import JS Citation Authors.
Local Open Scope outcome_scope.

(** *** [trim] *)

Lemma dropWhile_app (f : N -> bool) (a b : jsstring) :
  dropWhile f (a ++ b)
  = match dropWhile f a with
    | [] => dropWhile f b
    | r => r ++ b
    end.
Proof.
  induction a as [|c a IH]; cbn; [now destruct (dropWhile f b)|].
  destruct (f c); [exact IH | reflexivity].
Qed.

Lemma dropWhile_head (f : N -> bool) (s : jsstring) (c : N) (t : jsstring) :
  dropWhile f s = c :: t -> f c = false.
Proof.
  induction s as [|d s IH]; cbn; [discriminate|].
  destruct (f d) eqn:E; [exact IH|]. now intros [= <- _].
Qed.

Lemma dropWhile_fixed (f : N -> bool) (s : jsstring) :
  dropWhile f (dropWhile f s) = dropWhile f s.
Proof.
  destruct (dropWhile f s) as [|c t] eqn:E; [reflexivity|].
  cbn. now rewrite (dropWhile_head _ _ E).
Qed.

(** [trimEnd] by recursion on the string. *)
Lemma trimEnd_cons (c : N) (s : jsstring) :
  trimEnd (c :: s)
  = match trimEnd s with
    | [] => if isWhite c then [] else [c]
    | t => c :: t
    end.
Proof.
  unfold trimEnd. cbn [rev]. rewrite dropWhile_app.
  destruct (dropWhile isWhite (rev s)) as [|d r]; cbn.
  - now destruct (isWhite c).
  - rewrite rev_app_distr. cbn.
    destruct (rev r ++ [d]) eqn:E; [|reflexivity].
    now destruct (rev r).
Qed.

Lemma trimEnd_head (s : jsstring) (c : N) (t : jsstring) :
  trimEnd s = c :: t -> exists s', s = c :: s'.
Proof.
  destruct s as [|d s]; [discriminate|].
  rewrite trimEnd_cons.
  destruct (trimEnd s); [destruct (isWhite d)|];
    intros [= <- _]; eauto.
Qed.

Lemma trimEnd_fixed (s : jsstring) : trimEnd (trimEnd s) = trimEnd s.
Proof.
  unfold trimEnd. rewrite rev_involutive. now rewrite dropWhile_fixed.
Qed.

Lemma trimStart_trimEnd (t : jsstring) :
  trimStart t = t -> trimStart (trimEnd t) = trimEnd t.
Proof.
  unfold trimStart. intros Ht.
  destruct (trimEnd t) as [|c u] eqn:E; [reflexivity|].
  destruct (trimEnd_head _ E) as [s' ->].
  cbn in Ht |- *. destruct (isWhite c) eqn:W; [|reflexivity].
  exfalso.
  assert (L : (length (dropWhile isWhite s') <= length s')%nat).
  { clear. induction s' as [|d s' IH]; cbn; [lia|].
    destruct (isWhite d); cbn; lia. }
  rewrite Ht in L. cbn in L. lia.
Qed.

(** [trim] changes nothing that is already trimmed. *)
Lemma trim_fixed (s : jsstring) : trim (trim s) = trim s.
Proof.
  unfold trim.
  rewrite (@trimStart_trimEnd (trimStart s)).
  - apply trimEnd_fixed.
  - apply dropWhile_fixed.
Qed.

Lemma trim_nil : trim [] = [].
Proof. reflexivity. Qed.

Lemma trimOf_fixed (x : option jsstring) (a : jsstring) :
  trimOf x = Ok a -> trim a = a.
Proof.
  destruct x as [s|]; cbn; [|discriminate].
  intros [= <-]. apply trim_fixed.
Qed.


(** *** What the dispatch puts into the fields *)

Lemma yearLoop_year parts n :
  forall i y yi, yearLoop parts n i = Ok (y, yi) ->
                 (y = [] \/ Re.year4 y = true) /\ trim y = y.
Proof.
  induction n as [|n IH]; intros i y yi; cbn [yearLoop].
  - intros [= <- _]. split; [now left | reflexivity].
  - destruct (at_ parts i) as [x|]; cbn; [|discriminate].
    destruct (Re.year4 (trim x)) eqn:E.
    + intros [= <- _]. split; [now right | apply trim_fixed].
    + apply IH.
Qed.

Lemma titleLoop_fixed parts n :
  forall i t, titleLoop parts n i = Ok t -> trim t = t.
Proof.
  induction n as [|n IH]; intros i t; cbn [titleLoop].
  - now intros [= <-].
  - destruct (at_ parts i) as [x|]; cbn; [|discriminate].
    destruct (titleLike (trim x)).
    + intros [= <-]. apply trim_fixed.
    + apply IH.
Qed.

Lemma titleScan_fixed parts start t :
  titleScan parts start = Ok t -> trim t = t.
Proof. apply titleLoop_fixed. Qed.

Lemma firstPartOf_fixed parts : trim (firstPartOf parts) = firstPartOf parts.
Proof.
  unfold firstPartOf. destruct (at_ parts 0); [apply trim_fixed | reflexivity].
Qed.

Ltac outcome_inv :=
  repeat match goal with
         | H : bind ?m _ = Ok _ |- _ =>
             let E := fresh "E" in
             destruct m eqn:E; cbn [bind] in H; [|discriminate H]
         | H : (if ?c then _ else _) = Ok _ |- _ => destruct c
         | H : TypeError = Ok _ |- _ => discriminate H
         | H : trimOf _ = Ok _ |- _ => apply trimOf_fixed in H
         | H : titleScan _ _ = Ok _ |- _ => apply titleScan_fixed in H
         | H : Ok [] = Ok _ |- _ => injection H as <-
         | H : Ok (mkPublication _ _ _ _ _) = Ok _ |- _ => injection H as <-
         end.

(** The fields as first chosen: the year is empty or four digits, and
    year, authors, title and journal are trimmed. *)
Lemma dispatch_fields (pub : jsstring) (p : Publication) :
  dispatch pub = Ok p ->
  (year p = [] \/ Re.year4 (year p) = true)
  /\ trim (year p) = year p /\ trim (authors p) = authors p
  /\ trim (title p) = title p /\ trim (journal p) = journal p.
Proof.
  unfold dispatch.
  destruct (doiLoop _ _ _) as [[d i]|]; [|discriminate].
  cbn [bind].
  destruct (yearLoop _ _ _) as [[y yi]|] eqn:Y; [|discriminate].
  cbn [bind].
  apply yearLoop_year in Y. destruct Y as [Yshape Ytrim].
  pose proof (firstPartOf_fixed (split tilde pub)) as Hfp.
  destruct (Re.year4 (firstPartOf (split tilde pub))) eqn:F.
  - intros H. outcome_inv; cbn [year authors title journal];
      repeat split; auto.
  - destruct ((0 <=? yi)%Z && truthy_opt (at_ (split tilde pub) (yi + 1))).
    + match goal with
      | |- context [match ?x with Some s => trim s | None => [] end] =>
          assert (Hay : trim (match x with Some s => trim s | None => [] end)
                        = match x with Some s => trim s | None => [] end)
            by (destruct x; [apply trim_fixed | reflexivity])
      end.
      intros H. outcome_inv; cbn [year authors title journal];
        repeat split; auto.
    + intros [= <-]. cbn. repeat split; auto.
Qed.


Lemma later_steps_keep_year_journal (p : Publication) :
  year (cleanAuthors (rejectTitle (swapCorrection p))) = year p
  /\ journal (cleanAuthors (rejectTitle (swapCorrection p))) = journal p.
Proof.
  unfold cleanAuthors, rejectTitle, swapCorrection.
  destruct (looksSwapped (title p) (authors p)); cbn;
    match goal with
    | |- context [if ?c then _ else _] => destruct c
    end; split; reflexivity.
Qed.

(** X8.  The year of an extracted citation is empty or exactly four
    decimal digits. *)
Theorem extract_year_shape (pub : jsstring) :
  exists out, extract pub = Ok out
              /\ (year out = [] \/ Re.year4 (year out) = true).
Proof.
  destruct (dispatch_total pub) as [p Hp].
  exists (cleanAuthors (rejectTitle (swapCorrection p))).
  split; [now apply extract_after_dispatch|].
  destruct (later_steps_keep_year_journal p) as [-> _].
  now destruct (dispatch_fields _ Hp) as [H _].
Qed.

Lemma doiShaped_nonempty (p : jsstring) : doiShaped p = true -> p <> [].
Proof. intros H ->. discriminate H. Qed.



Lemma badTitle_false (t : jsstring) :
  badTitle t = false -> t <> [] ->
  Re.digits t = false /\ Re.datePrefix t = false /\ (10 <= length t)%nat.
Proof.
  unfold badTitle. intros H Hne.
  destruct t as [|c t]; [now contradiction Hne|].
  cbn [truthy andb] in H.
  repeat (apply orb_false_iff in H; destruct H as [H ?]).
  repeat split; auto.
  match goal with
  | H : (_ <? 10)%nat = false |- _ => apply Nat.ltb_ge in H; exact H
  end.
Qed.

(** X10.  No publication returned by [parsePublications] has a title
    that is purely numeric or that starts like a date [YYYY-MM-DD]. *)
Theorem parsePublications_titles (l : list jsstring) :
  exists pubs,
    parsePublications l = Ok pubs
    /\ Forall (fun p => Re.digits (title p) = false
                        /\ Re.datePrefix (title p) = false) pubs.
Proof.
  destruct (mapM_extract_total l) as (pubs & E & F).
  exists (filter accepted pubs).
  split; [unfold parsePublications; now rewrite E|].
  apply Forall_forall. intros out Hin. apply filter_In in Hin.
  destruct Hin as [Hin Hacc].
  assert (Hex : exists raw, extract raw = Ok out).
  { clear -F Hin. induction F as [|raw q l pubs Hq F IH]; [destruct Hin|].
    destruct Hin as [<-|Hin]; eauto. }
  destruct Hex as [raw Hraw].
  destruct (dispatch_total raw) as [p Hp].
  rewrite (extract_after_dispatch _ Hp) in Hraw. injection Hraw as <-.
  unfold accepted in Hacc. apply andb_true_iff in Hacc. destruct Hacc as [Ht _].
  revert Ht. unfold cleanAuthors, rejectTitle. cbn [title].
  destruct (badTitle (title (swapCorrection p))) eqn:B; cbn [title];
    [discriminate|].
  intros Ht.
  assert (Hne : title (swapCorrection p) <> []).
  { intros Hnil. rewrite Hnil in Ht. discriminate Ht. }
  destruct (badTitle_false B Hne) as (Hd & Hdate & _). now split.
Qed.


Lemma trimEnd_app_fixed (a b : jsstring) :
  trimEnd b = b -> b <> [] -> trimEnd (a ++ b) = a ++ b.
Proof.
  intros Hb Hne. induction a as [|c a IH]; [exact Hb|].
  cbn [app]. rewrite trimEnd_cons, IH.
  destruct (a ++ b) eqn:E; [|reflexivity].
  apply app_eq_nil in E. destruct E as [_ E]. now contradiction Hne.
Qed.

Lemma normalizeDoi_trimmed (x : jsstring) :
  doiShaped (trim x) = true ->
  trim (normalizeDoi (trim x)) = normalizeDoi (trim x).
Proof.
  intros Hshape. unfold normalizeDoi.
  destruct (includes (js "http") (trim x)); [apply trim_fixed|].
  unfold trim at 1.
  replace (trimStart (js "https://doi.org/" ++ trim x))
    with (js "https://doi.org/" ++ trim x) by reflexivity.
  apply trimEnd_app_fixed.
  - unfold trim. apply trimEnd_fixed.
  - now apply doiShaped_nonempty.
Qed.

Lemma cleanAuthorsText_trimmed (a : jsstring) :
  trim (cleanAuthorsText a) = cleanAuthorsText a.
Proof.
  unfold cleanAuthorsText. destruct a as [|c a]; [reflexivity|].
  cbn [truthy]. apply trim_fixed.
Qed.

(** X11.  No field of an extracted citation begins or ends with white
    space: trimming year, authors, title, identifier or journal again
    changes nothing. *)
Theorem extract_fields_trimmed (pub : jsstring) :
  exists out,
    extract pub = Ok out
    /\ trim (year out) = year out
    /\ trim (authors out) = authors out
    /\ trim (title out) = title out
    /\ trim (doi out) = doi out
    /\ trim (journal out) = journal out.
Proof.
  destruct (dispatch_total pub) as [p Hp].
  exists (cleanAuthors (rejectTitle (swapCorrection p))).
  split; [now apply extract_after_dispatch|].
  destruct (dispatch_fields _ Hp) as (_ & Hy & Ha & Ht & Hj).
  destruct (later_steps_keep_year_journal p) as [-> ->].
  split; [exact Hy|].
  split; [apply cleanAuthorsText_trimmed|].
  split.
  - unfold cleanAuthors, rejectTitle, swapCorrection. cbn [title].
    destruct (looksSwapped (title p) (authors p)); cbn [title];
      match goal with
      | |- context [if ?c then _ else _] => destruct c
      end; cbn [title]; auto.
  - split; [|exact Hj].
    destruct (extract_doi pub) as (out & E & D).
    rewrite (extract_after_dispatch _ Hp) in E. injection E as <-.
    rewrite D. unfold doiOfFirst.
    destruct (find doiShaped (map trim (split tilde pub))) as [p0|] eqn:F;
      [|reflexivity].
    apply find_some in F. destruct F as [Hin Hshape].
    apply in_map_iff in Hin. destruct Hin as (x & <- & _).
    now apply normalizeDoi_trimmed.
Qed.

Lemma mapM_app {A B} (f : A -> Outcome B) (a b : list A) :
  mapM f (a ++ b)
  = (xs <- mapM f a ;; ys <- mapM f b ;; Ok (xs ++ ys)).
Proof.
  induction a as [|x a IH]; cbn [app mapM bind].
  - now destruct (mapM f b).
  - destruct (f x); cbn [bind]; [|reflexivity].
    rewrite IH. destruct (mapM f a); cbn [bind]; [|reflexivity].
    now destruct (mapM f b).
Qed.

(** X12.  Citations are parsed independently of one another: the result
    for a concatenation of two lists is the concatenation of the two
    results, and [parsePublications] never returns more entries than it
    is given. *)
Theorem parsePublications_app (a b : list jsstring) :
  exists pa pb,
    parsePublications a = Ok pa
    /\ parsePublications b = Ok pb
    /\ parsePublications (a ++ b) = Ok (pa ++ pb)
    /\ (length pa <= length a)%nat.
Proof.
  destruct (mapM_extract_total a) as (xs & Ea & Fa).
  destruct (mapM_extract_total b) as (ys & Eb & _).
  exists (filter accepted xs), (filter accepted ys).
  unfold parsePublications. rewrite mapM_app, Ea, Eb. cbn [bind].
  rewrite filter_app. repeat split.
  rewrite (Forall2_length Fa). apply filter_length_le.
Qed.


(** *** The author clean-up *)

Lemma stripLoop_no_match (n : nat) :
  forall s, (forall k, Re.emailAt (skipn k s) = None) -> Re.stripLoop n s = s.
Proof.
  induction n as [|n IH]; intros s H; [reflexivity|].
  cbn [Re.stripLoop]. destruct s as [|c s]; [reflexivity|].
  rewrite (H 0%nat : Re.emailAt (c :: s) = None).
  f_equal. apply IH. intros k. exact (H (S k)).
Qed.

Lemma existsb_skipn {A} (f : A -> bool) (k : nat) (s : list A) :
  existsb f s = false -> existsb f (skipn k s) = false.
Proof.
  revert s. induction k as [|k IH]; intros s; [now cbn|].
  destruct s as [|c s]; cbn; [reflexivity|].
  intros H. apply orb_false_iff in H. destruct H as [_ H]. now apply IH.
Qed.

Lemma existsb_takeWhile (f g : N -> bool) (s : jsstring) :
  existsb f s = false -> existsb f (takeWhile g s) = false.
Proof.
  induction s as [|c s IH]; cbn; [reflexivity|].
  intros H. apply orb_false_iff in H. destruct H as [Hc H].
  destruct (g c); cbn; [|reflexivity]. now rewrite Hc, IH.
Qed.

Lemma existsb_dropWhile (f g : N -> bool) (s : jsstring) :
  existsb f s = false -> existsb f (dropWhile g s) = false.
Proof.
  induction s as [|c s IH]; cbn; [reflexivity|].
  intros H. destruct (g c); [|exact H].
  apply orb_false_iff in H. destruct H as [_ H]. now apply IH.
Qed.

Lemma existsb_removelast {A} (f : A -> bool) (s : list A) :
  existsb f s = false -> existsb f (removelast s) = false.
Proof.
  induction s as [|c s IH]; cbn; [reflexivity|].
  intros H. apply orb_false_iff in H. destruct H as [Hc H].
  destruct s; [reflexivity|]. cbn [existsb]. rewrite Hc. now apply IH.
Qed.

Lemma emailAt_needs_at (s : jsstring) :
  existsb (N.eqb atSign) s = false -> Re.emailAt s = None.
Proof.
  intros H. unfold Re.emailAt.
  assert (I : Re.innerAt (takeWhile Re.notWhite (dropWhile isWhite s)) = false).
  { unfold Re.innerAt. apply existsb_removelast.
    pose proof (existsb_takeWhile (N.eqb atSign) Re.notWhite _
                  (existsb_dropWhile (N.eqb atSign) isWhite s H)) as Hw.
    destruct (takeWhile Re.notWhite (dropWhile isWhite s)) as [|c w];
      [reflexivity|].
    cbn in Hw |- *. apply orb_false_iff in Hw. now destruct Hw. }
  rewrite I. now rewrite andb_false_r.
Qed.

Lemma emailAt_needs_white (s : jsstring) :
  existsb isWhite s = false -> Re.emailAt s = None.
Proof.
  intros H. unfold Re.emailAt. destruct s as [|c s]; [reflexivity|].
  cbn in H |- *. apply orb_false_iff in H. destruct H as [-> _]. reflexivity.
Qed.

(** X13.  The author clean-up only touches strings that hold both white
    space and an [@]: without either, the authors come out as they
    went in, trimmed.  In particular a lone e-mail address is kept. *)
Theorem cleanAuthors_untouched (a : jsstring) :
  existsb (N.eqb atSign) a = false \/ existsb isWhite a = false ->
  cleanAuthorsText a = trim a.
Proof.
  intros H. unfold cleanAuthorsText.
  destruct a as [|c a]; [reflexivity|]. cbn [truthy].
  unfold Re.stripEmails. rewrite stripLoop_no_match; [reflexivity|].
  intros k. destruct H as [H|H].
  - apply emailAt_needs_at. now apply existsb_skipn.
  - apply emailAt_needs_white. now apply existsb_skipn.
Qed.

Lemma cleanAuthors_untouched_witness :
  (existsb (N.eqb atSign) (js "jdoe@example.org") = false
   \/ existsb isWhite (js "jdoe@example.org") = false)
  /\ cleanAuthorsText (js "jdoe@example.org") = trim (js "jdoe@example.org").
Proof.
  assert (H : existsb (N.eqb atSign) (js "jdoe@example.org") = false
              \/ existsb isWhite (js "jdoe@example.org") = false)
    by (right; reflexivity).
  split; [exact H|].
  exact (@cleanAuthors_untouched (js "jdoe@example.org") H).
Defined.


Lemma emailAt_white (c : N) (t : jsstring) :
  isWhite c = true ->
  Re.emailAt (c :: t)
  = if Re.innerAt (firstWord t)
    then Some (dropWhile Re.notWhite (dropWhile isWhite t))
    else None.
Proof. intros H. unfold Re.emailAt, firstWord. cbn. now rewrite H. Qed.

Lemma emailAt_nonwhite (c : N) (t : jsstring) :
  isWhite c = false -> Re.emailAt (c :: t) = None.
Proof. intros H. unfold Re.emailAt. cbn. now rewrite H. Qed.

Lemma emailAt_rest_startsWhite (s rest : jsstring) :
  Re.emailAt s = Some rest -> startsWhite rest = true.
Proof.
  unfold Re.emailAt.
  destruct (truthy _ && Re.innerAt _); [|discriminate].
  intros [= <-].
  destruct (dropWhile Re.notWhite (dropWhile isWhite s)) as [|d r] eqn:E;
    [reflexivity|].
  apply dropWhile_head in E. unfold Re.notWhite in E.
  cbn. now apply negb_false_iff in E.
Qed.

Lemma stripLoop_startsWhite (n : nat) :
  forall s, startsWhite s = true -> startsWhite (Re.stripLoop n s) = true.
Proof.
  induction n as [|n IH]; intros s H; [exact H|].
  cbn [Re.stripLoop]. destruct s as [|c s]; [reflexivity|].
  destruct (Re.emailAt (c :: s)) as [rest|] eqn:E.
  - apply IH. now apply emailAt_rest_startsWhite in E.
  - exact H.
Qed.

Lemma takeWhile_startsWhite (s : jsstring) :
  startsWhite s = true -> takeWhile Re.notWhite s = [].
Proof.
  destruct s as [|c s]; [reflexivity|]. cbn. unfold Re.notWhite.
  now intros ->.
Qed.

Lemma stripLoop_takeWhile (n : nat) :
  forall s, takeWhile Re.notWhite (Re.stripLoop n s) = takeWhile Re.notWhite s.
Proof.
  induction n as [|n IH]; intros s; [reflexivity|].
  cbn [Re.stripLoop]. destruct s as [|c s]; [reflexivity|].
  destruct (isWhite c) eqn:W.
  - assert (Hs : takeWhile Re.notWhite (c :: s) = []).
    { apply takeWhile_startsWhite. exact W. }
    rewrite Hs.
    destruct (Re.emailAt (c :: s)) as [rest|] eqn:E.
    + apply takeWhile_startsWhite, stripLoop_startsWhite.
      now apply emailAt_rest_startsWhite in E.
    + cbn. unfold Re.notWhite. now rewrite W.
  - rewrite (emailAt_nonwhite _ _ W). cbn. unfold Re.notWhite. rewrite W.
    cbn. now rewrite IH.
Qed.

Lemma stripLoop_firstWord (n : nat) :
  forall s, Re.innerAt (firstWord s) = false ->
            firstWord (Re.stripLoop n s) = firstWord s.
Proof.
  induction n as [|n IH]; intros s H; [reflexivity|].
  cbn [Re.stripLoop]. destruct s as [|c s]; [reflexivity|].
  destruct (isWhite c) eqn:W.
  - assert (Hfw : forall t, firstWord (c :: t) = firstWord t).
    { intros t. unfold firstWord. cbn. now rewrite W. }
    rewrite Hfw in H. rewrite (emailAt_white _ _ W), H, !Hfw. now apply IH.
  - rewrite (emailAt_nonwhite _ _ W).
    unfold firstWord. cbn. rewrite W. cbn. unfold Re.notWhite at 1 3.
    rewrite W. cbn. now rewrite stripLoop_takeWhile.
Qed.

Lemma stripLoop_no_email (n : nat) :
  forall s, (length s <= n)%nat -> hasEmail (Re.stripLoop n s) = false.
Proof.
  induction n as [|n IH]; intros s Hlen.
  - destruct s; [reflexivity | cbn in Hlen; lia].
  - cbn [Re.stripLoop]. destruct s as [|c s]; [reflexivity|].
    destruct (Re.emailAt (c :: s)) as [rest|] eqn:E.
    + apply IH. apply emailAt_shorter in E. cbn in *. lia.
    + cbn [hasEmail].
      assert (E' : Re.emailAt (c :: Re.stripLoop n s) = None).
      { destruct (isWhite c) eqn:W; [|now apply emailAt_nonwhite].
        rewrite (emailAt_white _ _ W) in E. rewrite (emailAt_white _ _ W).
        destruct (Re.innerAt (firstWord s)) eqn:I; [discriminate|].
        now rewrite (stripLoop_firstWord n _ I), I. }
      rewrite E'. apply IH. cbn in Hlen. lia.
Qed.

Lemma hasEmail_tail (c : N) (s : jsstring) :
  hasEmail (c :: s) = false -> Re.emailAt (c :: s) = None /\ hasEmail s = false.
Proof. cbn [hasEmail]. destruct (Re.emailAt (c :: s)); [discriminate | auto]. Qed.

Lemma hasEmail_dropWhile (f : N -> bool) (s : jsstring) :
  hasEmail s = false -> hasEmail (dropWhile f s) = false.
Proof.
  induction s as [|c s IH]; [reflexivity|].
  intros H. cbn [dropWhile]. destruct (f c); [|exact H].
  apply IH. now apply hasEmail_tail in H.
Qed.

Lemma takeWhile_trimEnd (t : jsstring) :
  takeWhile Re.notWhite (trimEnd t) = takeWhile Re.notWhite t.
Proof.
  induction t as [|c t IH]; [reflexivity|].
  rewrite trimEnd_cons. unfold Re.notWhite in *.
  destruct (isWhite c) eqn:W.
  - destruct (trimEnd t); cbn; now rewrite ?W.
  - destruct (trimEnd t) eqn:E; cbn; rewrite W; cbn; now rewrite <- IH.
Qed.

Lemma dropWhile_trimEnd (t : jsstring) :
  dropWhile isWhite (trimEnd t) = trimEnd (dropWhile isWhite t).
Proof.
  induction t as [|c t IH]; [reflexivity|].
  rewrite trimEnd_cons. destruct (isWhite c) eqn:W.
  - cbn [dropWhile]. rewrite W, <- IH.
    destruct (trimEnd t); cbn; now rewrite ?W.
  - cbn [dropWhile]. rewrite W, trimEnd_cons.
    destruct (trimEnd t); cbn; now rewrite W.
Qed.

Lemma firstWord_trimEnd (t : jsstring) :
  firstWord (trimEnd t) = firstWord t.
Proof.
  unfold firstWord. now rewrite dropWhile_trimEnd, takeWhile_trimEnd.
Qed.

Lemma hasEmail_trimEnd (t : jsstring) :
  hasEmail t = false -> hasEmail (trimEnd t) = false.
Proof.
  induction t as [|c t IH]; [reflexivity|].
  intros H. apply hasEmail_tail in H. destruct H as [E H].
  specialize (IH H). rewrite trimEnd_cons.
  destruct (trimEnd t) as [|d u] eqn:T.
  - destruct (isWhite c) eqn:W; [reflexivity|].
    cbn [hasEmail]. now rewrite (emailAt_nonwhite _ _ W).
  - cbn [hasEmail] in IH |- *.
    assert (E' : Re.emailAt (c :: d :: u) = None).
    { destruct (isWhite c) eqn:W; [|now apply emailAt_nonwhite].
      rewrite (emailAt_white _ _ W) in E. rewrite (emailAt_white _ _ W).
      rewrite <- T, firstWord_trimEnd.
      now destruct (Re.innerAt (firstWord t)). }
    rewrite E'. exact IH.
Qed.

(** X14.  After the clean-up no white space followed by an
    e-mail-shaped word is left: the pattern [/\s+\S+@\S+/] matches
    nowhere in the authors of an extracted citation. *)
Theorem extract_authors_no_email (pub : jsstring) :
  exists out, extract pub = Ok out /\ hasEmail (authors out) = false.
Proof.
  destruct (dispatch_total pub) as [p Hp].
  exists (cleanAuthors (rejectTitle (swapCorrection p))).
  split; [now apply extract_after_dispatch|].
  unfold cleanAuthors. cbn [authors]. unfold cleanAuthorsText.
  destruct (truthy _) eqn:T.
  - unfold trim, trimStart. apply hasEmail_trimEnd, hasEmail_dropWhile.
    unfold Re.stripEmails. now apply stripLoop_no_email.
  - destruct (authors (rejectTitle (swapCorrection p))); [reflexivity|].
    discriminate T.
Qed.

(** X23.  Format detection: when the first token, trimmed, is four
    digits, it is the year of the citation and the journal stays empty;
    otherwise the first token, trimmed, is the journal. *)
Theorem extract_format (pub : jsstring) :
  exists out,
    extract pub = Ok out
    /\ if Re.year4 (firstPartOf (split tilde pub))
       then year out = firstPartOf (split tilde pub) /\ journal out = []
       else journal out = firstPartOf (split tilde pub).
Proof.
  destruct (dispatch_total pub) as [p Hp].
  exists (cleanAuthors (rejectTitle (swapCorrection p))).
  split; [now apply extract_after_dispatch|].
  destruct (later_steps_keep_year_journal p) as [-> ->].
  revert Hp. unfold dispatch.
  destruct (doiLoop _ _ _) as [[d i]|]; [|discriminate].
  cbn [bind].
  destruct (yearLoop _ _ _) as [[y yi]|]; [|discriminate].
  cbn [bind].
  destruct (Re.year4 (firstPartOf (split tilde pub))).
  - intros H. outcome_inv; cbn [year journal]; split; reflexivity.
  - destruct ((0 <=? yi)%Z && truthy_opt (at_ (split tilde pub) (yi + 1))).
    + intros H. outcome_inv; reflexivity.
    + now intros [= <-].
Qed.

End CitationMore.

(* ================================================================== *)
(** * Properties of [stripHtml] and of the paper route *)
(* ================================================================== *)

Section HtmlFacts.
Import JS Html Paper.

(** *** Replacement loops in general *)

Lemma replaceLoop_nil (matchAt : jsstring -> option jsstring)
    (rep : jsstring) (n : nat) :
  replaceLoop matchAt rep n [] = [].
Proof. destruct n; reflexivity. Qed.

Lemma replaceLoop_no_match (matchAt : jsstring -> option jsstring)
    (rep : jsstring) (n : nat) :
  forall s, (forall k, matchAt (skipn k s) = None) ->
            replaceLoop matchAt rep n s = s.
Proof.
  induction n as [|n IH]; intros s H; [reflexivity|].
  cbn [replaceLoop]. destruct s as [|c s]; [reflexivity|].
  rewrite (H 0%nat : matchAt (c :: s) = None).
  f_equal. apply IH. intros k. exact (H (S k)).
Qed.

(** A replacement brings in no code unit of a kind [f] that neither the
    input nor the replacement text holds, when what is left after a
    match is part of the input. *)
Lemma replaceLoop_no_new (f : N -> bool)
    (matchAt : jsstring -> option jsstring) (rep : jsstring) :
  (forall s rest, matchAt s = Some rest ->
                  existsb f s = false -> existsb f rest = false) ->
  existsb f rep = false ->
  forall n s, existsb f s = false ->
              existsb f (replaceLoop matchAt rep n s) = false.
Proof.
  intros Hrest Hrep. induction n as [|n IH]; intros s H; [exact H|].
  cbn [replaceLoop]. destruct s as [|c s]; [reflexivity|].
  destruct (matchAt (c :: s)) as [rest|] eqn:E.
  - rewrite existsb_app, Hrep. cbn. apply IH. now apply (Hrest _ _ E).
  - cbn in H |- *. apply orb_false_iff in H. destruct H as [-> H].
    cbn. now apply IH.
Qed.

Lemma spacesAt_rest (f : N -> bool) (s rest : jsstring) :
  spacesAt s = Some rest -> existsb f s = false -> existsb f rest = false.
Proof.
  unfold spacesAt. destruct s as [|c s]; [discriminate|].
  destruct (isWhite c); [|discriminate].
  intros [= <-] H. now apply (existsb_dropWhile f isWhite (c :: s)).
Qed.

Lemma spacesAt_white (c : N) (s : jsstring) :
  isWhite c = true -> spacesAt (c :: s) = Some (dropWhile isWhite s).
Proof. intros W. unfold spacesAt. cbn. now rewrite W. Qed.

Lemma spacesAt_nonwhite (c : N) (s : jsstring) :
  isWhite c = false -> spacesAt (c :: s) = None.
Proof. intros W. unfold spacesAt. now rewrite W. Qed.

(** *** White space after [.replace(/\s+/g, " ").trim()] *)

Lemma collapse_loose (n : nat) :
  forall s, (length s <= n)%nat ->
            looseSpaced (replaceLoop spacesAt space n s) = true.
Proof.
  induction n as [|n IH]; intros s Hlen.
  - destruct s; [reflexivity | cbn in Hlen; lia].
  - cbn [replaceLoop]. destruct s as [|c s]; [reflexivity|].
    cbn [length] in Hlen.
    destruct (isWhite c) eqn:W.
    + rewrite (spacesAt_white _ _ W). cbn [space app].
      pose proof (dropWhile_length isWhite s) as Hd.
      cbn [looseSpaced]. rewrite IH by lia.
      change (isWhite 32) with true. cbn [N.eqb Pos.eqb andb].
      destruct (dropWhile isWhite s) as [|d r] eqn:E.
      * now rewrite replaceLoop_nil.
      * apply dropWhile_head in E.
        destruct n as [|n']; [cbn in Hd; lia|].
        cbn [replaceLoop]. rewrite (spacesAt_nonwhite _ _ E). now rewrite E.
    + rewrite (spacesAt_nonwhite _ _ W). cbn [looseSpaced]. rewrite W.
      cbn. apply IH. lia.
Qed.

Lemma looseSpaced_tail (c : N) (s : jsstring) :
  looseSpaced (c :: s) = true -> looseSpaced s = true.
Proof. cbn [looseSpaced]. intros H. apply andb_true_iff in H. tauto. Qed.

Lemma looseSpaced_dropWhile (f : N -> bool) (s : jsstring) :
  looseSpaced s = true -> looseSpaced (dropWhile f s) = true.
Proof.
  induction s as [|c s IH]; [reflexivity|].
  intros H. cbn [dropWhile]. destruct (f c); [|exact H].
  apply IH. now apply looseSpaced_tail in H.
Qed.

Lemma spacedInside_trimEnd (t : jsstring) :
  looseSpaced t = true -> spacedInside (trimEnd t) = true.
Proof.
  induction t as [|c t IH]; [reflexivity|].
  intros H. pose proof (looseSpaced_tail _ _ H) as Ht. specialize (IH Ht).
  rewrite trimEnd_cons. destruct (trimEnd t) as [|d u] eqn:T.
  - destruct (isWhite c) eqn:W; [reflexivity|]. cbn. now rewrite W.
  - destruct (trimEnd_head _ T) as [t' ->].
    cbn [spacedInside] in IH |- *. cbn [looseSpaced] in H.
    destruct (isWhite c); [|exact IH].
    apply andb_true_iff in H. destruct H as [H _]. now rewrite H.
Qed.

Lemma trim_singleSpaced (x : jsstring) :
  looseSpaced x = true -> singleSpaced (trim x) = true.
Proof.
  intros H. unfold trim, trimStart.
  pose proof (looseSpaced_dropWhile isWhite _ H) as Hd.
  pose proof (spacedInside_trimEnd _ Hd) as Hs.
  unfold singleSpaced.
  destruct (trimEnd (dropWhile isWhite x)) as [|c u] eqn:T; [reflexivity|].
  rewrite Hs, andb_true_r.
  destruct (trimEnd_head _ T) as [t' E].
  now rewrite (dropWhile_head _ _ E).
Qed.

Lemma normalized_singleSpaced (s : jsstring) :
  singleSpaced (trim (replaceAll spacesAt space s)) = true.
Proof. apply trim_singleSpaced, collapse_loose. lia. Qed.

(** X15.  The text [stripHtml] returns is single-spaced: it neither
    begins nor ends with white space, and every white-space code unit in
    it is one U+0020 between two other code units (tabs, line breaks
    and no-break spaces are gone). *)
Theorem stripHtml_singleSpaced (html : jsstring) :
  singleSpaced (stripHtml html) = true.
Proof. unfold stripHtml. apply normalized_singleSpaced. Qed.


(** *** Tags *)

Lemma no_gt_iff (t : jsstring) :
  dropWhile notGt t = [] <-> existsb (N.eqb gtSign) t = false.
Proof.
  induction t as [|c t IH]; cbn [dropWhile existsb]; [tauto|].
  unfold notGt at 1. rewrite (N.eqb_sym gtSign c).
  destruct (c =? gtSign)%N; cbn [negb orb]; [split; discriminate | exact IH].
Qed.

Lemma tagAt_rest (f : N -> bool) (s rest : jsstring) :
  tagAt s = Some rest -> existsb f s = false -> existsb f rest = false.
Proof.
  unfold tagAt. destruct s as [|c t]; [discriminate|].
  destruct (c =? ltSign)%N; [|discriminate].
  destruct (dropWhile notGt t) as [|d r] eqn:E; [discriminate|].
  intros [= <-] H. cbn in H. apply orb_false_iff in H. destruct H as [_ H].
  pose proof (existsb_dropWhile f notGt t H) as Hd. rewrite E in Hd.
  cbn in Hd. apply orb_false_iff in Hd. tauto.
Qed.

Lemma tagAt_shorter (s rest : jsstring) :
  tagAt s = Some rest -> (length rest < length s)%nat.
Proof.
  unfold tagAt. destruct s as [|c t]; [discriminate|].
  destruct (c =? ltSign)%N; [|discriminate].
  destruct (dropWhile notGt t) as [|d r] eqn:E; [discriminate|].
  intros [= <-]. pose proof (dropWhile_length notGt t) as L.
  rewrite E in L. cbn in *. lia.
Qed.

(** After [.replace(/<[^>]*>/g, " ")] no [<] has a [>] after it. *)
Lemma tags_replaced (n : nat) :
  forall s, (length s <= n)%nat ->
            hasTag (replaceLoop tagAt space n s) = false.
Proof.
  induction n as [|n IH]; intros s Hlen.
  - destruct s; [reflexivity | cbn in Hlen; lia].
  - cbn [replaceLoop]. destruct s as [|c s]; [reflexivity|].
    cbn [length] in Hlen.
    destruct (tagAt (c :: s)) as [rest|] eqn:E.
    + cbn. apply IH. apply tagAt_shorter in E. cbn in E. lia.
    + cbn [hasTag]. rewrite IH by lia. rewrite orb_false_r.
      destruct (c =? ltSign)%N eqn:C; [|reflexivity]. cbn [andb].
      apply (replaceLoop_no_new (N.eqb gtSign) tagAt space).
      * intros s0 rest0. apply tagAt_rest.
      * reflexivity.
      * apply no_gt_iff. unfold tagAt in E. rewrite C in E.
        now destruct (dropWhile notGt s).
Qed.

Lemma literalAt_needs_head (pat rep : jsstring) (h : N) (n : nat) (s : jsstring) :
  startsWith [h] pat = true ->
  existsb (N.eqb h) s = false ->
  replaceLoop (literalAt pat) rep n s = s.
Proof.
  intros Hpat Hs. apply replaceLoop_no_match. intros k.
  pose proof (existsb_skipn (N.eqb h) k s Hs) as Hk.
  unfold literalAt.
  destruct pat as [|p pat]; [discriminate|].
  cbn in Hpat. rewrite andb_true_r in Hpat. apply N.eqb_eq in Hpat. subst p.
  destruct (skipn k s) as [|c t]; [reflexivity|].
  cbn in Hk |- *. apply orb_false_iff in Hk. destruct Hk as [-> _]. reflexivity.
Qed.

Lemma hasTag_tail (c : N) (s : jsstring) :
  hasTag (c :: s) = false ->
  ((c =? ltSign)%N = true -> existsb (N.eqb gtSign) s = false)
  /\ hasTag s = false.
Proof.
  cbn [hasTag]. intros H. apply orb_false_iff in H. destruct H as [H1 H2].
  split; [|exact H2]. intros C. now rewrite C in H1.
Qed.

Lemma hasTag_cons (c : N) (s : jsstring) :
  ((c =? ltSign)%N = true -> existsb (N.eqb gtSign) s = false) ->
  hasTag s = false -> hasTag (c :: s) = false.
Proof.
  intros H1 H2. cbn [hasTag]. rewrite H2, orb_false_r.
  destruct (c =? ltSign)%N; [|reflexivity]. now rewrite H1.
Qed.

Lemma hasTag_dropWhile (f : N -> bool) (s : jsstring) :
  hasTag s = false -> hasTag (dropWhile f s) = false.
Proof.
  induction s as [|c s IH]; [reflexivity|].
  intros H. cbn [dropWhile]. destruct (f c); [|exact H].
  apply IH. now apply hasTag_tail in H.
Qed.

Lemma collapse_keeps_no_tag (n : nat) :
  forall s, hasTag s = false ->
            hasTag (replaceLoop spacesAt space n s) = false.
Proof.
  induction n as [|n IH]; intros s H; [exact H|].
  cbn [replaceLoop]. destruct s as [|c s]; [reflexivity|].
  destruct (hasTag_tail _ _ H) as [Hgt Hs].
  destruct (isWhite c) eqn:W.
  - rewrite (spacesAt_white _ _ W). cbn. apply IH.
    now apply hasTag_dropWhile.
  - rewrite (spacesAt_nonwhite _ _ W). apply hasTag_cons; [|now apply IH].
    intros C. apply (replaceLoop_no_new (N.eqb gtSign) spacesAt space).
    + intros s0 rest0. apply spacesAt_rest.
    + reflexivity.
    + now apply Hgt.
Qed.

Lemma existsb_trimEnd (f : N -> bool) (t : jsstring) :
  existsb f t = false -> existsb f (trimEnd t) = false.
Proof.
  induction t as [|c t IH]; [reflexivity|].
  cbn [existsb]. intros H. apply orb_false_iff in H. destruct H as [Hc H].
  rewrite trimEnd_cons. specialize (IH H).
  destruct (trimEnd t); [destruct (isWhite c)|]; cbn in *; now rewrite ?Hc.
Qed.

Lemma hasTag_trimEnd (t : jsstring) :
  hasTag t = false -> hasTag (trimEnd t) = false.
Proof.
  induction t as [|c t IH]; [reflexivity|].
  intros H. destruct (hasTag_tail _ _ H) as [Hgt Ht]. specialize (IH Ht).
  rewrite trimEnd_cons. destruct (trimEnd t) as [|d u] eqn:T.
  - destruct (isWhite c); [reflexivity|]. cbn. now rewrite andb_false_r.
  - apply hasTag_cons; [|exact IH].
    intros C. rewrite <- T. apply existsb_trimEnd. now apply Hgt.
Qed.

Lemma hasTag_trim (s : jsstring) : hasTag s = false -> hasTag (trim s) = false.
Proof.
  intros H. unfold trim, trimStart.
  now apply hasTag_trimEnd, hasTag_dropWhile.
Qed.

(** X16.  For a report without [&], [stripHtml] leaves no tag: no [<] of
    the result has a [>] after it.  The condition is needed, because the
    entities are decoded after the tags are removed: the escaped tag
    ["&lt;b&gt;"] comes out as the tag ["<b>"]. *)
Theorem stripHtml_no_tag (html : jsstring) :
  existsb (N.eqb ampersand) html = false ->
  hasTag (stripHtml html) = false
  /\ stripHtml (js "&lt;b&gt;") = js "<b>".
Proof.
  intros Hamp. split; [|vm_compute; reflexivity].
  unfold stripHtml.
  assert (H1 : hasTag (replaceAll tagAt space html) = false)
    by (apply tags_replaced; lia).
  assert (A1 : existsb (N.eqb ampersand) (replaceAll tagAt space html) = false).
  { apply (replaceLoop_no_new (N.eqb ampersand) tagAt space);
      [intros s0 rest0; apply tagAt_rest | reflexivity | exact Hamp]. }
  unfold replaceAll at 2 3 4 5 6.
  rewrite (@literalAt_needs_head (js "&nbsp;") space ampersand) by
    (reflexivity || exact A1).
  rewrite (@literalAt_needs_head (js "&amp;") (js "&") ampersand) by
    (reflexivity || exact A1).
  rewrite (@literalAt_needs_head (js "&lt;") (js "<") ampersand) by
    (reflexivity || exact A1).
  rewrite (@literalAt_needs_head (js "&gt;") (js ">") ampersand) by
    (reflexivity || exact A1).
  rewrite (@literalAt_needs_head (js "&quot;") [34%N] ampersand) by
    (reflexivity || exact A1).
  apply hasTag_trim, collapse_keeps_no_tag. exact H1.
Qed.

Lemma stripHtml_no_tag_witness :
  existsb (N.eqb ampersand) (js "<p>Results <b>in</b> brief</p>") = false
  /\ hasTag (stripHtml (js "<p>Results <b>in</b> brief</p>")) = false
  /\ stripHtml (js "&lt;b&gt;") = js "<b>".
Proof.
  split; [reflexivity|].
  apply (@stripHtml_no_tag (js "<p>Results <b>in</b> brief</p>")).
  reflexivity.
Defined.


(** *** The paper route *)

(** X17.  The paper route undoes the normalization of
    [parsePublications]: when the first DOI-shaped token of a citation
    has no "http" in it, the identifier the paper route looks up for
    the citation's [doi] is that token. *)
Theorem doi_round_trip (pub p0 : jsstring) :
  find Citation.doiShaped (map trim (split Citation.tilde pub)) = Some p0 ->
  includes (js "http") p0 = false ->
  exists out,
    Citation.extract pub = Ok out /\ doiIdOf (Citation.doi out) = p0.
Proof.
  intros Hfind Hhttp.
  destruct (extract_doi pub) as (out & E & D).
  exists out. split; [exact E|].
  rewrite D. unfold Citation.doiOfFirst. rewrite Hfind.
  unfold Citation.normalizeDoi. rewrite Hhttp. reflexivity.
Qed.

Lemma doi_round_trip_witness :
  find Citation.doiShaped
       (map trim (split Citation.tilde Citation.yearFirstRaw))
  = Some (js "10.1000/xyz123")
  /\ includes (js "http") (js "10.1000/xyz123") = false
  /\ exists out,
       Citation.extract Citation.yearFirstRaw = Ok out
       /\ doiIdOf (Citation.doi out) = js "10.1000/xyz123".
Proof.
  split; [vm_compute; reflexivity|].
  split; [vm_compute; reflexivity|].
  apply (@doi_round_trip Citation.yearFirstRaw (js "10.1000/xyz123"));
    vm_compute; reflexivity.
Defined.

Lemma bodyThenGt_none (r : jsstring) : bodyThenGt r = None <-> noBody r.
Proof.
  unfold bodyThenGt, noBody. rewrite <- no_gt_iff.
  destruct (takeWhile notGt r) as [|c w]; cbn [truthy].
  - split; auto.
  - destruct (dropWhile notGt r); split; intros H; auto; try discriminate.
    destruct H; discriminate.
Qed.

Lemma anyTagAt_none (c : N) (s : jsstring) :
  anyTagAt (c :: s) = None <-> ((c =? ltSign)%N = true -> noBody s).
Proof.
  unfold anyTagAt. destruct (c =? ltSign)%N.
  - rewrite bodyThenGt_none. tauto.
  - split; [discriminate | reflexivity].
Qed.

Lemma anyTagAt_rest (f : N -> bool) (s rest : jsstring) :
  anyTagAt s = Some rest -> existsb f s = false -> existsb f rest = false.
Proof.
  unfold anyTagAt, bodyThenGt. destruct s as [|c t]; [discriminate|].
  destruct (c =? ltSign)%N; [|discriminate].
  destruct (truthy _); [|discriminate].
  destruct (dropWhile notGt t) as [|d r] eqn:E; [discriminate|].
  intros [= <-] H. cbn in H. apply orb_false_iff in H. destruct H as [_ H].
  pose proof (existsb_dropWhile f notGt t H) as Hd. rewrite E in Hd.
  cbn in Hd. apply orb_false_iff in Hd. tauto.
Qed.

Lemma anyTagAt_shorter (s rest : jsstring) :
  anyTagAt s = Some rest -> (length rest < length s)%nat.
Proof.
  unfold anyTagAt, bodyThenGt. destruct s as [|c t]; [discriminate|].
  destruct (c =? ltSign)%N; [|discriminate].
  destruct (truthy _); [|discriminate].
  destruct (dropWhile notGt t) as [|d r] eqn:E; [discriminate|].
  intros [= <-]. pose proof (dropWhile_length notGt t) as L.
  rewrite E in L. cbn in *. lia.
Qed.

(** A step that copies a leading [>] and brings in no [>] keeps
    [noBody]. *)
Lemma noBody_kept (g : jsstring -> jsstring) (r : jsstring) :
  g [] = [] ->
  (forall x, exists y, g (gtSign :: x) = gtSign :: y) ->
  (existsb (N.eqb gtSign) r = false -> existsb (N.eqb gtSign) (g r) = false) ->
  noBody r -> noBody (g r).
Proof.
  intros Hnil Hgt Hno [H|H].
  - left. destruct r as [|c x]; [now rewrite Hnil|].
    cbn in H. unfold notGt in H.
    destruct (c =? gtSign)%N eqn:C; [|discriminate].
    apply N.eqb_eq in C. subst c.
    destruct (Hgt x) as [y ->]. reflexivity.
  - right. now apply Hno.
Qed.

Lemma replaceLoop_copies_gt (matchAt : jsstring -> option jsstring)
    (rep : jsstring) (n : nat) (x : jsstring) :
  matchAt (gtSign :: x) = None ->
  exists y, replaceLoop matchAt rep n (gtSign :: x) = gtSign :: y.
Proof.
  intros H. destruct n as [|n]; cbn [replaceLoop]; [eauto|].
  rewrite H. eauto.
Qed.

Lemma anyTags_removed (n : nat) :
  forall s, (length s <= n)%nat ->
            hasBodyTag (replaceLoop anyTagAt [] n s) = false.
Proof.
  induction n as [|n IH]; intros s Hlen.
  - destruct s; [reflexivity | cbn in Hlen; lia].
  - cbn [replaceLoop]. destruct s as [|c s]; [reflexivity|].
    cbn [length] in Hlen.
    destruct (anyTagAt (c :: s)) as [rest|] eqn:E.
    + cbn [app]. apply IH. apply anyTagAt_shorter in E. cbn in E. lia.
    + cbn [hasBodyTag]. rewrite IH by lia.
      assert (E' : anyTagAt (c :: replaceLoop anyTagAt [] n s) = None).
      { apply anyTagAt_none. intros C.
        apply (proj1 (anyTagAt_none c s) E) in C.
        apply (noBody_kept (replaceLoop anyTagAt [] n)); auto.
        - apply replaceLoop_nil.
        - intros x. now apply replaceLoop_copies_gt.
        - apply (replaceLoop_no_new (N.eqb gtSign) anyTagAt []);
            [intros s0 rest0; apply anyTagAt_rest | reflexivity]. }
      now rewrite E'.
Qed.

Lemma hasBodyTag_tail (c : N) (s : jsstring) :
  hasBodyTag (c :: s) = false ->
  anyTagAt (c :: s) = None /\ hasBodyTag s = false.
Proof.
  cbn [hasBodyTag]. destruct (anyTagAt (c :: s)); [discriminate | auto].
Qed.

Lemma hasBodyTag_dropWhile (f : N -> bool) (s : jsstring) :
  hasBodyTag s = false -> hasBodyTag (dropWhile f s) = false.
Proof.
  induction s as [|c s IH]; [reflexivity|].
  intros H. cbn [dropWhile]. destruct (f c); [|exact H].
  apply IH. now apply hasBodyTag_tail in H.
Qed.

Lemma collapse_keeps_no_body_tag (n : nat) :
  forall s, hasBodyTag s = false ->
            hasBodyTag (replaceLoop spacesAt space n s) = false.
Proof.
  induction n as [|n IH]; intros s H; [exact H|].
  cbn [replaceLoop]. destruct s as [|c s]; [reflexivity|].
  destruct (hasBodyTag_tail _ _ H) as [E Hs].
  destruct (isWhite c) eqn:W.
  - rewrite (spacesAt_white _ _ W). cbn [space app hasBodyTag].
    replace (anyTagAt (32%N :: replaceLoop spacesAt [32%N] n (dropWhile isWhite s)))
      with (@None jsstring) by reflexivity.
    apply IH. now apply hasBodyTag_dropWhile.
  - rewrite (spacesAt_nonwhite _ _ W). cbn [hasBodyTag]. rewrite IH by exact Hs.
    assert (E' : anyTagAt (c :: replaceLoop spacesAt space n s) = None).
    { apply anyTagAt_none. intros C.
      apply (proj1 (anyTagAt_none c s) E) in C.
      apply (noBody_kept (replaceLoop spacesAt space n)); auto.
      - apply replaceLoop_nil.
      - intros x. now apply replaceLoop_copies_gt.
      - apply (replaceLoop_no_new (N.eqb gtSign) spacesAt space);
          [intros s0 rest0; apply spacesAt_rest | reflexivity]. }
    now rewrite E'.
Qed.

Lemma hasBodyTag_trimEnd (t : jsstring) :
  hasBodyTag t = false -> hasBodyTag (trimEnd t) = false.
Proof.
  induction t as [|c t IH]; [reflexivity|].
  intros H. destruct (hasBodyTag_tail _ _ H) as [E Ht]. specialize (IH Ht).
  rewrite trimEnd_cons. destruct (trimEnd t) as [|d u] eqn:T.
  - destruct (isWhite c); [reflexivity|]. cbn [hasBodyTag].
    assert (E' : anyTagAt [c] = None).
    { apply anyTagAt_none. intros _. now left. }
    now rewrite E'.
  - cbn [hasBodyTag] in IH |- *.
    assert (E' : anyTagAt (c :: d :: u) = None).
    { rewrite <- T. apply anyTagAt_none. intros C.
      apply (proj1 (anyTagAt_none c t) E) in C.
      apply (noBody_kept trimEnd); auto.
      - intros x. rewrite trimEnd_cons.
        destruct (trimEnd x); [|eauto].
        change (isWhite gtSign) with false. cbn. eauto.
      - apply existsb_trimEnd. }
    rewrite E'. exact IH.
Qed.

(** X18.  A cleaned abstract is single-spaced and holds no tag with a
    body: the pattern [/<[^>]+>/] matches nowhere in it. *)
Theorem cleanAbstract_clean (abstract : jsstring) :
  singleSpaced (cleanAbstract abstract) = true
  /\ hasBodyTag (cleanAbstract abstract) = false.
Proof.
  unfold cleanAbstract. split; [apply normalized_singleSpaced|].
  unfold trim, trimStart.
  apply hasBodyTag_trimEnd, hasBodyTag_dropWhile, collapse_keeps_no_body_tag.
  apply anyTags_removed. lia.
Qed.


Lemma trimEnd_snoc_space (x : jsstring) : trimEnd (x ++ space) = trimEnd x.
Proof. unfold trimEnd, space. rewrite rev_app_distr. reflexivity. Qed.

Lemma trim_snoc_space (g : jsstring) : trim (g ++ space) = trim g.
Proof.
  unfold trim, trimStart. rewrite dropWhile_app.
  destruct (dropWhile isWhite g) as [|c r]; [reflexivity|].
  apply trimEnd_snoc_space.
Qed.

(** X19.  The author names the paper route joins are never empty and
    carry no white space at either end; an author without a given or
    without a family name is rendered by the other name alone, and an
    author with neither is left out. *)
Theorem authorNames_clean (author : list (option jsstring * option jsstring)) :
  Forall (fun name => name <> [] /\ trim name = name) (authorNames author)
  /\ (length (authorNames author) <= length author)%nat
  /\ (forall f, formatAuthor (None, Some f) = trim f)
  /\ (forall g, formatAuthor (Some g, None) = trim g)
  /\ authorNames [(None, None)] = [].
Proof.
  split.
  { unfold authorNames. apply Forall_forall. intros name Hin.
    apply filter_In in Hin. destruct Hin as [Hin Ht].
    apply in_map_iff in Hin. destruct Hin as (a & <- & _).
    split; [|apply trim_fixed].
    intros Hnil. rewrite Hnil in Ht. discriminate Ht. }
  split.
  { unfold authorNames.
    rewrite <- (length_map formatAuthor author). apply filter_length_le. }
  split; [reflexivity|].
  split; [|reflexivity].
  intros g. unfold formatAuthor. cbn [fst snd orEmpty].
  rewrite app_nil_r. apply trim_snoc_space.
Qed.

(** *** Plain text *)

Lemma replaceLoop_needs_head (matchAt : jsstring -> option jsstring)
    (rep : jsstring) (h : N) (n : nat) (s : jsstring) :
  (forall c t, matchAt (c :: t) <> None -> c = h) ->
  matchAt [] = None ->
  existsb (N.eqb h) s = false ->
  replaceLoop matchAt rep n s = s.
Proof.
  intros Hhead Hnil Hs. apply replaceLoop_no_match. intros k.
  pose proof (existsb_skipn (N.eqb h) k s Hs) as Hk.
  destruct (skipn k s) as [|c t]; [exact Hnil|].
  destruct (matchAt (c :: t)) eqn:E; [|reflexivity].
  assert (C : c = h) by (apply (Hhead c t); now rewrite E).
  subst c. cbn in Hk. now rewrite N.eqb_refl in Hk.
Qed.

Lemma tagAt_head (c : N) (t : jsstring) : tagAt (c :: t) <> None -> c = ltSign.
Proof.
  unfold tagAt. destruct (N.eqb_spec c ltSign); [auto|]. now intros H.
Qed.

Lemma anyTagAt_head (c : N) (t : jsstring) :
  anyTagAt (c :: t) <> None -> c = ltSign.
Proof.
  unfold anyTagAt. destruct (N.eqb_spec c ltSign); [auto|]. now intros H.
Qed.

Lemma jatsTagAt_head (c : N) (t : jsstring) :
  jatsTagAt (c :: t) <> None -> c = ltSign.
Proof.
  unfold jatsTagAt. destruct (N.eqb_spec c ltSign); [auto|]. now intros H.
Qed.

Lemma collapse_loose_fixed (n : nat) :
  forall s, looseSpaced s = true -> replaceLoop spacesAt space n s = s.
Proof.
  induction n as [|n IH]; intros s H; [reflexivity|].
  cbn [replaceLoop]. destruct s as [|c s]; [reflexivity|].
  pose proof (looseSpaced_tail _ _ H) as Hs.
  cbn [looseSpaced] in H. destruct (isWhite c) eqn:W.
  - rewrite (spacesAt_white _ _ W).
    apply andb_true_iff in H. destruct H as [H _].
    apply andb_true_iff in H. destruct H as [Hc Hnext].
    apply N.eqb_eq in Hc. subst c. cbn [space app]. f_equal.
    destruct s as [|d s]; [now rewrite replaceLoop_nil|].
    apply negb_true_iff in Hnext. cbn [dropWhile]. rewrite Hnext.
    now apply IH.
  - rewrite (spacesAt_nonwhite _ _ W). f_equal. now apply IH.
Qed.

Lemma spacedInside_loose (s : jsstring) :
  spacedInside s = true -> looseSpaced s = true.
Proof.
  induction s as [|c s IH]; [reflexivity|].
  cbn [spacedInside looseSpaced]. destruct (isWhite c).
  - intros H. apply andb_true_iff in H. destruct H as [H Hs].
    apply andb_true_iff in H. destruct H as [Hc Hnext].
    rewrite Hc, (IH Hs). destruct s; [discriminate Hnext|]. now rewrite Hnext.
  - intros H. now rewrite IH.
Qed.

Lemma spacedInside_trimEnd_fixed (s : jsstring) :
  spacedInside s = true -> trimEnd s = s.
Proof.
  induction s as [|c s IH]; [reflexivity|].
  intros H. rewrite trimEnd_cons. cbn [spacedInside] in H.
  destruct (isWhite c) eqn:W.
  - apply andb_true_iff in H. destruct H as [H Hs].
    apply andb_true_iff in H. destruct H as [_ Hnext].
    rewrite (IH Hs). destruct s; [discriminate Hnext | reflexivity].
  - rewrite (IH H). now destruct s.
Qed.

Lemma singleSpaced_trim_fixed (s : jsstring) :
  singleSpaced s = true -> trim s = s.
Proof.
  unfold singleSpaced, trim, trimStart. destruct s as [|c s]; [reflexivity|].
  intros H. apply andb_true_iff in H. destruct H as [Hc Hs].
  apply negb_true_iff in Hc. cbn [dropWhile]. rewrite Hc.
  now apply spacedInside_trimEnd_fixed.
Qed.

Lemma singleSpaced_loose (s : jsstring) :
  singleSpaced s = true -> looseSpaced s = true.
Proof.
  unfold singleSpaced. destruct s as [|c s]; [reflexivity|].
  intros H. apply andb_true_iff in H. destruct H as [_ H].
  now apply spacedInside_loose.
Qed.

(** X24.  Plain text passes through both clean-ups unchanged: a
    single-spaced string without [<] and [&] is a fixed point of
    [stripHtml], and a single-spaced string without [<] is a fixed
    point of the abstract clean-up. *)
Theorem plain_text_unchanged (s : jsstring) :
  singleSpaced s = true ->
  existsb (N.eqb ltSign) s = false ->
  (existsb (N.eqb ampersand) s = false -> stripHtml s = s)
  /\ cleanAbstract s = s.
Proof.
  intros Hsp Hlt. split.
  - intros Hamp. unfold stripHtml, replaceAll.
    rewrite (@replaceLoop_needs_head tagAt space ltSign) by
      (exact tagAt_head || reflexivity || exact Hlt).
    rewrite (@literalAt_needs_head (js "&nbsp;") space ampersand) by
      (reflexivity || exact Hamp).
    rewrite (@literalAt_needs_head (js "&amp;") (js "&") ampersand) by
      (reflexivity || exact Hamp).
    rewrite (@literalAt_needs_head (js "&lt;") (js "<") ampersand) by
      (reflexivity || exact Hamp).
    rewrite (@literalAt_needs_head (js "&gt;") (js ">") ampersand) by
      (reflexivity || exact Hamp).
    rewrite (@literalAt_needs_head (js "&quot;") [34%N] ampersand) by
      (reflexivity || exact Hamp).
    rewrite collapse_loose_fixed by now apply singleSpaced_loose.
    now apply singleSpaced_trim_fixed.
  - unfold cleanAbstract, replaceAll.
    rewrite (@replaceLoop_needs_head jatsTagAt [] ltSign) by
      (exact jatsTagAt_head || reflexivity || exact Hlt).
    rewrite (@replaceLoop_needs_head anyTagAt [] ltSign) by
      (exact anyTagAt_head || reflexivity || exact Hlt).
    rewrite collapse_loose_fixed by now apply singleSpaced_loose.
    now apply singleSpaced_trim_fixed.
Qed.

Lemma plain_text_unchanged_witness :
  singleSpaced (js "Results in brief") = true
  /\ existsb (N.eqb ltSign) (js "Results in brief") = false
  /\ (existsb (N.eqb ampersand) (js "Results in brief") = false ->
      stripHtml (js "Results in brief") = js "Results in brief")
  /\ cleanAbstract (js "Results in brief") = js "Results in brief".
Proof.
  split; [reflexivity|]. split; [reflexivity|].
  apply (@plain_text_unchanged (js "Results in brief")); reflexivity.
Defined.

(** *** The positions allotted to a replacement are enough *)

Lemma replaceLoop_enough (matchAt : jsstring -> option jsstring)
    (rep : jsstring) :
  (forall s rest, matchAt s = Some rest -> (length rest < length s)%nat) ->
  forall n m s, (length s <= n)%nat -> (length s <= m)%nat ->
                replaceLoop matchAt rep n s = replaceLoop matchAt rep m s.
Proof.
  intros Hshrink. induction n as [|n IH]; intros m s Hn Hm.
  - destruct s; [|cbn in Hn; lia]. now rewrite !replaceLoop_nil.
  - destruct m as [|m].
    + destruct s; [reflexivity | cbn in Hm; lia].
    + cbn [replaceLoop]. destruct s as [|c s]; [reflexivity|].
      destruct (matchAt (c :: s)) as [rest|] eqn:E.
      * apply Hshrink in E. cbn in *. f_equal. apply IH; lia.
      * cbn in *. f_equal. apply IH; lia.
Qed.

Lemma spacesAt_shorter (s rest : jsstring) :
  spacesAt s = Some rest -> (length rest < length s)%nat.
Proof.
  unfold spacesAt. destruct s as [|c s]; [discriminate|].
  destruct (isWhite c) eqn:W; [|discriminate].
  intros [= <-]. cbn [dropWhile]. rewrite W.
  pose proof (dropWhile_length isWhite s). cbn. lia.
Qed.

Lemma literalAt_shorter (pat s rest : jsstring) :
  pat <> [] -> literalAt pat s = Some rest -> (length rest < length s)%nat.
Proof.
  intros Hpat. unfold literalAt.
  destruct (startsWith pat s) eqn:E; [|discriminate].
  intros [= <-]. destruct pat as [|p pat]; [now contradiction Hpat|].
  destruct s as [|c s]; [discriminate E|].
  cbn [length skipn]. pose proof (length_skipn (length pat) s). lia.
Qed.

Lemma jatsTagAt_shorter (s rest : jsstring) :
  jatsTagAt s = Some rest -> (length rest < length s)%nat.
Proof.
  unfold jatsTagAt, bodyThenGt. destruct s as [|c t]; [discriminate|].
  destruct (c =? ltSign)%N; [|discriminate].
  set (t1 := match t with 47%N :: t' => t' | _ => t end).
  assert (L1 : (length t1 <= length t)%nat).
  { unfold t1. destruct t as [|d t']; [cbn; lia|].
    destruct d as [|q]; [cbn; lia|].
    do 6 (try destruct q as [q|q|]); cbn; lia. }
  destruct (startsWith (js "jats:") t1); [|discriminate].
  destruct (truthy _); [|discriminate].
  destruct (dropWhile notGt (skipn 5 t1)) as [|d r] eqn:E; [discriminate|].
  intros [= <-].
  pose proof (dropWhile_length notGt (skipn 5 t1)) as L2. rewrite E in L2.
  pose proof (length_skipn 5 t1) as L3. cbn in *. lia.
Qed.

End HtmlFacts.

(* ================================================================== *)
(** * Properties of the grant route *)
(* ================================================================== *)

Section GrantRouteFacts.
Import JS Citation Sampler Html GrantRoute.
Local Open Scope Z_scope.

Lemma digit_not_white (c : N) : isDigit c = true -> isWhite c = false.
Proof.
  unfold isDigit, isWhite. intros H. apply andb_true_iff in H.
  destruct H as [H1 H2]. apply N.leb_le in H1. apply N.leb_le in H2.
  repeat match goal with
         | |- context [(?a <=? ?b)%N] =>
             let E := fresh in
             destruct (N.leb_spec a b) as [E|E]; cbn [andb orb]
         | |- context [(?a =? ?b)%N] =>
             let E := fresh in
             destruct (N.eqb_spec a b) as [E|E]; cbn [andb orb]
         end; try reflexivity; lia.
Qed.

Lemma digitsValue_nonneg (ds : jsstring) (acc : Z) :
  0 <= acc ->
  0 <= fold_left (fun a c => a * 10 + digitValue c) ds acc.
Proof.
  revert acc. induction ds as [|c ds IH]; intros acc H; cbn; [exact H|].
  apply IH. unfold digitValue. lia.
Qed.

(** On a plain run of digits [parseInt] yields the number they spell. *)
Lemma parseInt10_digits (s : jsstring) :
  Re.digits s = true ->
  parseInt10 s = Some (digitsValue s) /\ 0 <= digitsValue s.
Proof.
  unfold Re.digits, JS.all. intros H. apply andb_true_iff in H.
  destruct H as [Hne Hall].
  split; [|now apply digitsValue_nonneg].
  destruct s as [|c s]; [discriminate|].
  cbn [forallb] in Hall. apply andb_true_iff in Hall. destruct Hall as [Hc Hs].
  unfold parseInt10, trimStart. cbn [dropWhile].
  rewrite (digit_not_white _ Hc).
  assert (Hsign : c <> 45%N /\ c <> 43%N).
  { unfold isDigit in Hc. apply andb_true_iff in Hc. destruct Hc as [H1 _].
    apply N.leb_le in H1. split; intros ->; discriminate H1 || lia. }
  assert (Htake : takeWhile isDigit (c :: s) = c :: s).
  { cbn. rewrite Hc. f_equal. clear -Hs.
    induction s as [|d s IH]; [reflexivity|].
    cbn in Hs |- *. apply andb_true_iff in Hs. destruct Hs as [-> Hs].
    now rewrite IH. }
  destruct c as [|q]; [now destruct Hsign|].
  destruct Hsign as [H45 H43].
  do 7 (try destruct q as [q|q|]); try (now contradiction H45);
    try (now contradiction H43); rewrite Htake; reflexivity.
Qed.


(** X21.  What the handler does with a grant once it is found cannot
    raise: it always yields the publications and the outcomes text.
    Every publication has a title longer than 10 code units; the
    outcomes text is [null] exactly when the report is missing or
    empty, and is single-spaced otherwise. *)
Theorem presentGrant_total (publicationResearch : option (list jsstring))
    (projectOutComesReport : option jsstring) :
  exists publications outcomes,
    presentGrant publicationResearch projectOutComesReport
    = Ok (publications, outcomes)
    /\ Forall (fun p => (10 < length (title p))%nat) publications
    /\ (publicationResearch = None -> publications = [])
    /\ (outcomes = None
        <-> projectOutComesReport = None \/ projectOutComesReport = Some [])
    /\ (forall t, outcomes = Some t -> singleSpaced t = true).
Proof.
  unfold presentGrant.
  assert (Hp : exists publications,
    match publicationResearch with
    | Some l => parsePublications l
    | None => Ok []
    end = Ok publications
    /\ Forall (fun p => (10 < length (title p))%nat) publications
    /\ (publicationResearch = None -> publications = [])).
  { destruct publicationResearch as [l|].
    - destruct (mapM_extract_total l) as (pubs & E & _).
      exists (filter accepted pubs). unfold parsePublications. rewrite E.
      split; [reflexivity|]. split; [|discriminate].
      apply Forall_forall. intros p Hin. apply filter_In in Hin.
      destruct Hin as [_ Hacc]. unfold accepted in Hacc.
      apply andb_true_iff in Hacc. destruct Hacc as [_ Hl].
      now apply Nat.ltb_lt in Hl.
    - exists []. repeat split; auto. }
  destruct Hp as (publications & -> & Hf & Hn). cbn [bind].
  eexists publications, _. split; [reflexivity|].
  split; [exact Hf|]. split; [exact Hn|].
  destruct projectOutComesReport as [[|c r]|]; cbn [truthy].
  - split; [split; auto|discriminate].
  - split.
    + split; [discriminate|]. intros [H|H]; discriminate H.
    + intros t [= <-]. unfold stripHtml. apply normalized_singleSpaced.
  - split; [split; auto|discriminate].
Qed.

End GrantRouteFacts.
